(** * functions-samples: the media derivation trigger (ffmpeg-convert-video)

    A shallow embedding of [generateThumbnail] and its helpers
    ([getCodec], [getDimentions], [convertFile], [createPoster],
    [createPosterFromVideo]) from
    [ffmpeg-convert-video/functions/index.js], together with the older
    variant of the same trigger, and the properties of the
    decision-and-derivation pipeline.

    Modelling conventions.
    - A JavaScript string is a [list ascii]; [toLowerCase] is the ASCII
      case map (object names are treated as ASCII text).
    - [path] is Node's [path.posix]; [os.tmpdir()] is ["/tmp"].
    - A JavaScript number that goes through [/], [*] and [Math.floor] is an
      IEEE-754 binary64 value, taken from [SpecFloat] at precision 53.
    - The storage bucket, ffprobe, ffmpeg, ImageMagick and mkdirp are
      outside the program: an environment answers every call, indexed by
      the position of the call in the run.
    - An [await] on a promise that rejects throws; an [await] on a promise
      that never settles leaves the invocation hanging; an exception thrown
      inside a callback of ffprobe is caught by nobody. *)

From Stdlib Require Import List Ascii String ZArith QArith Qround Bool Lia.
From Stdlib Require Import DecimalString.
From Stdlib Require Import SpecFloat.
From Stdlib Require PrimFloat FloatOps FloatAxioms Uint63.
Import ListNotations.
Local Open Scope Z_scope.

(** ** JavaScript strings *)

Definition str := list ascii.

Definition lit (s : string) : str := list_ascii_of_string s.

Definition chr_eqb (a b : ascii) : bool := Ascii.eqb a b.

Fixpoint str_eqb (a b : str) : bool :=
  match a, b with
  | [], [] => true
  | x :: a', y :: b' => chr_eqb x y && str_eqb a' b'
  | _, _ => false
  end.

(** [String.prototype.toLowerCase], on ASCII letters. *)
Definition lower_chr (c : ascii) : ascii :=
  let n := N_of_ascii c in
  if (65 <=? n)%N && (n <=? 90)%N then ascii_of_N (n + 32) else c.

Definition toLowerCase (s : str) : str := map lower_chr s.

(** [s.startsWith(p)] *)
Fixpoint startsWith (s p : str) : bool :=
  match p, s with
  | [], _ => true
  | _ :: _, [] => false
  | y :: p', x :: s' => chr_eqb x y && startsWith s' p'
  end.

(** [s.endsWith(p)] *)
Definition endsWith (s p : str) : bool := startsWith (rev s) (rev p).

Definition slash : ascii := "/"%char.
Definition dot : ascii := "."%char.

Definition is_slash (c : ascii) : bool := chr_eqb c slash.

(** The character class [[^/.]]. *)
Definition not_slash_dot (c : ascii) : bool :=
  negb (chr_eqb c slash) && negb (chr_eqb c dot).

(** Does [/\.[^/.]+$/] match with the match starting at the head of [s]? *)
Definition ext_here (s : str) : bool :=
  match s with
  | c :: rest =>
      chr_eqb c dot &&
      match rest with
      | [] => false
      | _ :: _ => forallb not_slash_dot rest
      end
  | [] => false
  end.

(** [s.replace(/\.[^/.]+$/, repl)] for a replacement that holds no [$]:
    the leftmost match is replaced, and a string without a match is
    returned as it is. *)
Fixpoint replace_ext (s repl : str) : str :=
  match s with
  | [] => []
  | c :: rest => if ext_here s then repl else c :: replace_ext rest repl
  end.

(** A replacement without [$]: [replace] inserts it as it is. With a [$]
    in it [replace] would expand patterns such as [$&]; the trigger passes
    no such replacement, and [replace_ext] stands for [replace] on these
    only. *)
Definition literal_replacement (repl : str) : bool :=
  negb (existsb (fun c => chr_eqb c "$"%char) repl).

(** [/\.[^/.]+$/.test(s)] *)
Fixpoint has_ext (s : str) : bool :=
  match s with
  | [] => false
  | c :: rest => ext_here s || has_ext rest
  end.

(** [String(n)] for an integer-valued number. *)
Definition string_of_Z (n : Z) : str :=
  lit (NilZero.string_of_int (Z.to_int n)).

(** ** Node's [path.posix] *)

Module Path.

Fixpoint dropWhile {A} (f : A -> bool) (l : list A) : list A :=
  match l with
  | [] => []
  | x :: l' => if f x then dropWhile f l' else l
  end.

Fixpoint takeWhile {A} (f : A -> bool) (l : list A) : list A :=
  match l with
  | [] => []
  | x :: l' => if f x then x :: takeWhile f l' else []
  end.

Definition not_slash (c : ascii) : bool := negb (is_slash c).

(** [path.basename(p)]: scanning from the end, the trailing separators
    are skipped and the component before them is returned. *)
Definition basename (p : str) : str :=
  rev (takeWhile not_slash (dropWhile is_slash (rev p))).

(** [path.dirname(p)]: the scan runs from the end down to index 1; it
    skips the trailing separators and the last component, and cuts at
    the separator it then meets. *)
Definition dirname (p : str) : str :=
  match p with
  | [] => [dot]
  | c0 :: tl =>
      let hasRoot := is_slash c0 in
      match dropWhile not_slash (dropWhile is_slash (rev tl)) with
      | [] => if hasRoot then [slash] else [dot]
      | _ :: before =>
          match before with
          | [] => if hasRoot then [slash; slash] else [c0]
          | _ :: _ => c0 :: rev before
          end
      end
  end.

(** The components of a path between separators. *)
Fixpoint split_acc (cur : str) (p : str) : list str :=
  match p with
  | [] => [rev cur]
  | c :: p' => if is_slash c then rev cur :: split_acc [] p'
               else split_acc (c :: cur) p'
  end.

Definition split (p : str) : list str := split_acc [] p.

Definition dotdot : str := [dot; dot].

(** [normalizeString]: the stack of kept components, most recent first. *)
Fixpoint resolve (allowAboveRoot : bool) (stack : list str) (segs : list str)
  : list str :=
  match segs with
  | [] => stack
  | s :: segs' =>
      if str_eqb s [] || str_eqb s [dot] then resolve allowAboveRoot stack segs'
      else if str_eqb s dotdot then
        match stack with
        | top :: below =>
            if str_eqb top dotdot
            then resolve allowAboveRoot
                   (if allowAboveRoot then dotdot :: stack else stack) segs'
            else resolve allowAboveRoot below segs'
        | [] =>
            resolve allowAboveRoot
              (if allowAboveRoot then [dotdot] else []) segs'
        end
      else resolve allowAboveRoot (s :: stack) segs'
  end.

Fixpoint unsplit (segs : list str) : str :=
  match segs with
  | [] => []
  | [s] => s
  | s :: segs' => s ++ slash :: unsplit segs'
  end.

Definition last_is_slash (p : str) : bool :=
  match rev p with
  | c :: _ => is_slash c
  | [] => false
  end.

(** [path.normalize(p)] *)
Definition normalize (p : str) : str :=
  match p with
  | [] => [dot]
  | c0 :: _ =>
      let isAbsolute := is_slash c0 in
      let trailingSeparator := last_is_slash p in
      let body := unsplit (rev (resolve (negb isAbsolute) [] (split p))) in
      match body with
      | [] =>
          if isAbsolute then [slash]
          else if trailingSeparator then [dot; slash] else [dot]
      | _ :: _ =>
          let body' := if trailingSeparator then body ++ [slash] else body in
          if isAbsolute then slash :: body' else body'
      end
  end.

(** The concatenation step of [path.join]: empty arguments are skipped,
    the others are glued with a separator. *)
Fixpoint glue (joined : option str) (args : list str) : option str :=
  match args with
  | [] => joined
  | a :: args' =>
      match a with
      | [] => glue joined args'
      | _ :: _ =>
          glue (Some (match joined with
                      | None => a
                      | Some j => j ++ slash :: a
                      end)) args'
      end
  end.

(** [path.join(...args)] *)
Definition join (args : list str) : str :=
  match glue None args with
  | None => [dot]
  | Some j => normalize j
  end.

End Path.

(** ** JavaScript numbers (IEEE-754 binary64) *)

Definition prec : Z := 53.
Definition emax : Z := 1024.

Definition number := spec_float.

(** The number denoted by an integer literal or an integer field. *)
Definition num (z : Z) : number := binary_normalize prec emax z 0 false.

Definition num_sub : number -> number -> number := SFsub prec emax.
Definition num_mul : number -> number -> number := SFmul prec emax.
Definition num_div : number -> number -> number := SFdiv prec emax.
Definition num_ltb : number -> number -> bool := SFltb.

(** [Math.floor] of a finite number, as an integer. *)
Definition Math_floor (x : number) : Z :=
  match x with
  | S754_finite s m e => Z.shiftl (cond_Zopp s (Z.pos m)) e
  | _ => 0
  end.

(** A field that may be [undefined] compared with a number: a comparison
    with [undefined] is false. *)
Definition js_lt (a : option Z) (b : Z) : bool :=
  match a with Some x => x <? b | None => false end.

Definition js_gt (a : option Z) (b : Z) : bool :=
  match a with Some x => x >? b | None => false end.

Definition field_num (a : option Z) : number :=
  match a with Some x => num x | None => S754_nan end.

(** ** ffprobe metadata and promises *)

Definition Error := string.

Module Stream.
Record t := mk
  { codec_type : str;
    codec_name : str;
    width : option Z;
    height : option Z }.
End Stream.

Record Metadata := { streams : list Stream.t }.

Inductive Promise (A : Type) : Type :=
| Pending
| Resolved (a : A)
| Rejected (e : Error).
Arguments Pending {A}.
Arguments Resolved {A} a.
Arguments Rejected {A} e.

(** Settling a promise that is already settled does nothing. *)
Definition resolve {A} (p : Promise A) (a : A) : Promise A :=
  match p with Pending => Resolved a | _ => p end.

Definition reject {A} (p : Promise A) (e : Error) : Promise A :=
  match p with Pending => Rejected e | _ => p end.

(** The body of the [forEach] callback of [getCodec]: the state is the
    variable [videoCodec] and the promise. *)
Definition getCodec_each (st : option str * Promise (option str)) (stream : Stream.t)
  : option str * Promise (option str) :=
  let '(videoCodec, p) := st in
  if str_eqb (Stream.codec_type stream) (lit "video") then
    let videoCodec := Some (Stream.codec_name stream) in
    (videoCodec, resolve p videoCodec)
  else (videoCodec, p).

(** The promise of [getCodec] once ffprobe has called back with
    [(err, metadata)]. *)
Definition getCodec_settle (r : Error + Metadata) : Promise (option str) :=
  match r with
  | inl err => reject Pending err
  | inr metadata =>
      let videoCodec : option str := None in
      snd (fold_left getCodec_each (streams metadata) (videoCodec, Pending))
  end.

Record Dimensions := { width : option Z; height : option Z }.

(** An exception that nothing catches: the [TypeError] of reading
    [property] off [undefined], raised inside a callback of ffprobe, which
    runs outside the promise and outside the handler. *)
Inductive Exception :=
| TypeError (property : string).

(** The callback of [getDimentions], called with [(err, metadata)]: the
    promise once the callback is over, and the exception that escapes it.
    On an error the promise is rejected, but the callback does not return
    there: it goes on to read [metadata.streams], and [metadata] is
    [undefined]. With no stream at all, [streams[0]] is [undefined] and
    reading its [width] throws before [res] is called. *)
Definition getDimentions_settle (r : Error + Metadata)
  : Promise Dimensions * option Exception :=
  let p : Promise Dimensions := Pending in
  let p := match r with inl err => reject p err | inr _ => p end in
  match r with
  | inl _ => (p, Some (TypeError "streams"))
  | inr metadata =>
      match streams metadata with
      | [] => (p, Some (TypeError "width"))
      | s0 :: _ =>
          (resolve p {| width := Stream.width s0; height := Stream.height s0 |},
           None)
      end
  end.

(** ** The outside world *)

Inductive jsval :=
| JStr (s : str)
| JBool (b : bool).

Record UploadOptions :=
  { destination : str;
    uploadType : option str;
    resumable : option bool;
    public : option bool;
    metadata : list (string * jsval) }.

(** A fluent-ffmpeg command as built by [convertFile] and
    [createPosterFromVideo]. *)
Record FfmpegCommand :=
  { input : str;
    format : option str;
    videoCodec : option str;
    size : option str;
    seek : option Z;
    frames : option Z;
    output : str }.

Inductive Request :=
| Mkdirp (dir : str)
| Download (bucket : str) (file : str) (destination : str)
| Ffprobe (file : str)
| Spawn (command : str) (args : list str)
| Ffmpeg (cmd : FfmpegCommand)
| Upload (bucket : str) (localPath : str) (options : UploadOptions)
| UnlinkSync (file : str).

Inductive Response :=
| Ok
| Failed (e : Error)
| Probed (m : Metadata).

Definition Event : Type := Request * Response.

(** The answers of the outside world; the first argument is the number of
    calls made before this one. *)
Record Env :=
  { io : nat -> Request -> option Error;
    ffprobe : nat -> str -> Error + Metadata }.

(** The local scratch files that exist, and the calls made so far. *)
Record World :=
  { files : list str;
    trace : list Event }.

(** How an invocation ends: the handler returns, its promise is rejected,
    it waits for ever on a promise that nobody settles, or an exception
    escapes a callback, which stops the handler where it is and reaches the
    process instead of the handler's promise. *)
Inductive Outcome (A : Type) : Type :=
| Done (a : A)
| Throw (e : Error)
| Hang
| Uncaught (x : Exception).
Arguments Done {A} a.
Arguments Throw {A} e.
Arguments Hang {A}.
Arguments Uncaught {A} x.

Definition M (A : Type) : Type := World -> Outcome A * World.

Definition ret {A} (a : A) : M A := fun w => (Done a, w).

Definition bind {A B} (c : M A) (k : A -> M B) : M B :=
  fun w =>
    match c w with
    | (Done a, w') => k a w'
    | (Throw e, w') => (Throw e, w')
    | (Hang, w') => (Hang, w')
    | (Uncaught x, w') => (Uncaught x, w')
    end.

Notation "x <- c ;; k" := (bind c (fun x => k))
  (at level 61, c at next level, right associativity).
Notation "c ;; k" := (bind c (fun _ => k))
  (at level 61, right associativity).

(** [snoc l x] is [l] with [x] appended. *)
Fixpoint snoc {A} (l : list A) (x : A) : list A :=
  match l with
  | [] => [x]
  | y :: l' => y :: snoc l' x
  end.

Definition log (ev : Event) (w : World) : World :=
  {| files := files w; trace := snoc (trace w) ev |}.

Definition create (f : str) (w : World) : World :=
  {| files := f :: files w; trace := trace w |}.

Fixpoint mem (f : str) (l : list str) : bool :=
  match l with
  | [] => false
  | g :: l' => str_eqb f g || mem f l'
  end.

Fixpoint remove (f : str) (l : list str) : list str :=
  match l with
  | [] => []
  | g :: l' => if str_eqb f g then remove f l' else g :: remove f l'
  end.

(** An awaited call to the outside: a failure is thrown. *)
Definition call (env : Env) (r : Request) : M unit :=
  fun w =>
    match io env (List.length (trace w)) r with
    | Some e => (Throw e, log (r, Failed e) w)
    | None => (Done tt, log (r, Ok) w)
    end.

(** A call that leaves a file behind when it succeeds. *)
Definition call_creating (env : Env) (r : Request) (f : str) : M unit :=
  call env r ;; (fun w => (Done tt, create f w)).

(** [ffmpeg.ffprobe(file, callback)]: the arguments of the callback. *)
Definition probe (env : Env) (file : str) : M (Error + Metadata) :=
  fun w =>
    let r := ffprobe env (List.length (trace w)) file in
    (Done r, log (Ffprobe file, match r with inl e => Failed e | inr m => Probed m end) w).

Definition await {A} (p : Promise A) : M A :=
  fun w =>
    match p with
    | Resolved a => (Done a, w)
    | Rejected e => (Throw e, w)
    | Pending => (Hang, w)
    end.

Definition ENOENT : Error := "ENOENT"%string.

(** [fs.unlinkSync(f)] throws when the file is not there. *)
Definition unlinkSync (f : str) : M unit :=
  fun w =>
    if mem f (files w)
    then (Done tt, log (UnlinkSync f, Ok)
                     {| files := remove f (files w); trace := trace w |})
    else (Throw ENOENT, log (UnlinkSync f, Failed ENOENT) w).

Definition os_tmpdir : str := lit "/tmp".

(** The payload of the [onFinalize] trigger. *)
Record ObjectMetadata :=
  { name : str;
    bucket : str;
    contentType : str }.

Definition mkdirp (env : Env) (dir : str) : M unit := call env (Mkdirp dir).

Definition download (env : Env) (b file dest : str) : M unit :=
  call_creating env (Download b file dest) dest.

Definition upload (env : Env) (b localPath : str) (o : UploadOptions) : M unit :=
  call env (Upload b localPath o).

Definition initial : World := {| files := []; trace := [] |}.

(** ** [ffmpeg-convert-video/functions/index.js] *)

(** Max height and width of the thumbnail in pixels. *)
Definition THUMB_MAX_HEIGHT : Z := 300.
Definition THUMB_MAX_WIDTH : Z := 300.
(** Thumbnail prefix added to file names. *)
Definition THUMB_PREFIX : str := lit "thumb_".

Definition getCodec (env : Env) (filePath : str) : M (option str) :=
  r <- probe env filePath ;;
  await (getCodec_settle r).

(** An exception that escapes the callback is raised before the
    continuation of the [await] can run. *)
Definition getDimentions (env : Env) (media : str) : M Dimensions :=
  r <- probe env media ;;
  match getDimentions_settle r with
  | (_, Some x) => fun w => (Uncaught x, w)
  | (p, None) => await p
  end.

Definition convertCommand (input output size : str) : FfmpegCommand :=
  {| input := input;
     format := Some (lit "mp4");
     videoCodec := Some (lit "libx264");
     size := Some size;
     seek := None;
     frames := None;
     output := output |}.

Definition convertFile (env : Env) (input output size : str) : M str :=
  call_creating env (Ffmpeg (convertCommand input output size)) output ;;
  ret output.

Definition posterCommand (input output : str) : FfmpegCommand :=
  {| input := input;
     format := None;
     videoCodec := None;
     size := None;
     seek := Some 1;
     frames := Some 1;
     output := output |}.

Definition createPosterFromVideo (env : Env) (input output : str) : M str :=
  call_creating env (Ffmpeg (posterCommand input output)) output ;;
  ret output.

Definition videoMetadata : list (string * jsval) :=
  [("gzip"%string, JBool true);
   ("cacheControl"%string, JStr (lit "public, max-age=31536000"))].

Definition posterOptions (remotePath : str) : UploadOptions :=
  {| destination := remotePath;
     uploadType := Some (lit "media");
     resumable := Some false;
     public := None;
     metadata := videoMetadata |}.

Definition createPoster (env : Env) (b filePath tempLocalFile : str) : M unit :=
  let remotePath := replace_ext filePath (lit "_poster.jpg") in
  let localPath := Path.join [os_tmpdir; remotePath] in
  createPosterFromVideo env tempLocalFile localPath ;;
  upload env b localPath (posterOptions remotePath) ;;
  unlinkSync localPath.

Definition thumbOptions (thumbFilePath contentType : str) : UploadOptions :=
  {| destination := thumbFilePath;
     uploadType := None;
     resumable := None;
     public := Some true;
     metadata := [("contentType"%string, JStr contentType);
                  ("Cache-Control"%string, JStr (lit "public,max-age=3600"))] |}.

Definition mp4Options (mp4FilePath : str) : UploadOptions :=
  {| destination := mp4FilePath;
     uploadType := Some (lit "media");
     resumable := Some false;
     public := Some true;
     metadata := videoMetadata |}.

Definition thumbnailBox (w h : Z) : str :=
  string_of_Z w ++ lit "x" ++ string_of_Z h ++ lit ">".

Definition thumbFilePath_of (filePath : str) : str :=
  Path.normalize
    (Path.join [Path.dirname filePath; THUMB_PREFIX ++ Path.basename filePath]).

Definition mp4FilePath_of (filePath : str) : str :=
  Path.normalize
    (Path.join [Path.dirname filePath;
                replace_ext (Path.basename filePath) (lit "_output.mp4")]).

Definition mp4FilePathThumb_of (filePath : str) : str :=
  Path.normalize
    (Path.join [Path.dirname filePath;
                replace_ext (Path.basename filePath) (lit "_thumb_output.mp4")]).

Definition remotePath_of (filePath : str) : str :=
  replace_ext filePath (lit "_poster.jpg").

(** One axis of the preview reduction: [100 - ((d - t) / d) * 100] when
    the dimension exceeds the threshold, the initial [0] otherwise. *)
Definition reducePercentage (t : Z) (d : option Z) : number :=
  if js_gt d t
  then num_sub (num 100)
         (num_mul (num_div (num_sub (field_num d) (num t)) (field_num d)) (num 100))
  else num 0.

Definition reduce_of (dimensions : Dimensions) : Z :=
  let reduceHeightPercentage := reducePercentage 480 (height dimensions) in
  let reduceWidthPercentage := reducePercentage 425 (width dimensions) in
  Math_floor (if num_ltb reduceHeightPercentage reduceWidthPercentage
              then reduceHeightPercentage else reduceWidthPercentage).

Definition is_image (contentType : str) : bool :=
  startsWith (toLowerCase contentType) (lit "image/").

Definition is_video (contentType : str) : bool :=
  startsWith (toLowerCase contentType) (lit "video/").

Definition generateThumbnail (env : Env) (object : ObjectMetadata) : M unit :=
  (* File and directory paths. *)
  let filePath := name object in
  let contentType := contentType object in
  if negb (is_image contentType) && negb (is_video contentType) then ret tt
  else
    let fileDir := Path.dirname filePath in
    let fileName := Path.basename filePath in
    let tempLocalFile := Path.join [os_tmpdir; filePath] in
    let tempLocalDir := Path.dirname tempLocalFile in
    (* Create the temp directory where the storage file will be downloaded. *)
    mkdirp env tempLocalDir ;;
    (* Download file from bucket. *)
    download env (bucket object) filePath tempLocalFile ;;
    if is_image contentType then
      (* Exit if the image is already a thumbnail. *)
      if startsWith (toLowerCase fileName) THUMB_PREFIX
         || endsWith (toLowerCase fileName) (lit "_poster.jpg")
      then ret tt
      else
        picDimensions <- getDimentions env tempLocalFile ;;
        if js_lt (width picDimensions) THUMB_MAX_WIDTH
           && js_lt (height picDimensions) THUMB_MAX_HEIGHT
        then ret tt
        else
          let thumbFilePath :=
            Path.normalize (Path.join [fileDir; THUMB_PREFIX ++ fileName]) in
          let tempLocalThumbFile := Path.join [os_tmpdir; thumbFilePath] in
          (* Generate a thumbnail using ImageMagick. *)
          call_creating env
            (Spawn (lit "convert")
               [tempLocalFile; lit "-thumbnail";
                thumbnailBox THUMB_MAX_WIDTH THUMB_MAX_HEIGHT; tempLocalThumbFile])
            tempLocalThumbFile ;;
          (* Uploading the Thumbnail. *)
          upload env (bucket object) tempLocalThumbFile
            (thumbOptions thumbFilePath contentType) ;;
          unlinkSync tempLocalThumbFile ;;
          unlinkSync tempLocalFile
    else if is_video contentType then
      (* This is to prevent triggering another converting mp4 file. *)
      if endsWith (toLowerCase fileName) (lit "_output.mp4") then ret tt
      else
        codec <- getCodec env tempLocalFile ;;
        (* we only convert video which has codec not h264 *)
        (if negb (match codec with
                  | Some c => str_eqb c (lit "h264")
                  | None => false
                  end)
         then
           let mp4FilePath :=
             Path.normalize
               (Path.join [fileDir; replace_ext fileName (lit "_output.mp4")]) in
           let targetTempFilePath := Path.join [os_tmpdir; mp4FilePath] in
           convertFile env tempLocalFile targetTempFilePath (lit "100%") ;;
           upload env (bucket object) targetTempFilePath (mp4Options mp4FilePath) ;;
           unlinkSync targetTempFilePath
         else ret tt) ;;
        createPoster env (bucket object) filePath tempLocalFile ;;
        dimensions <- getDimentions env tempLocalFile ;;
        (* create thumb for video *)
        let reduce := reduce_of dimensions in
        (if reduce >? 0 then
           let mp4FilePathThumb :=
             Path.normalize
               (Path.join [fileDir; replace_ext fileName (lit "_thumb_output.mp4")]) in
           let targetTempFilePathThumb := Path.join [os_tmpdir; mp4FilePathThumb] in
           convertFile env tempLocalFile targetTempFilePathThumb
             (string_of_Z reduce ++ lit "%") ;;
           upload env (bucket object) targetTempFilePathThumb
             (mp4Options mp4FilePathThumb) ;;
           unlinkSync targetTempFilePathThumb
         else ret tt) ;;
        unlinkSync tempLocalFile
    else ret tt.

(** One invocation of the trigger, from an empty scratch directory. *)
Definition handle (env : Env) (object : ObjectMetadata) : Outcome unit * World :=
  generateThumbnail env object initial.

(** ** The older variant of the trigger *)

Module Legacy.

Definition THUMB_MAX_HEIGHT : Z := 200.
Definition THUMB_MAX_WIDTH : Z := 200.
Definition THUMB_PREFIX : str := lit "thumb_".

Definition getCodec (env : Env) (filePath : str) : M (option str) :=
  r <- probe env filePath ;;
  await (getCodec_settle r).

Definition convertCommand (input output : str) : FfmpegCommand :=
  {| input := input;
     format := Some (lit "mp4");
     videoCodec := Some (lit "libx264");
     size := None;
     seek := None;
     frames := None;
     output := output |}.

Definition convertFile (env : Env) (input output : str) : M str :=
  call_creating env (Ffmpeg (convertCommand input output)) output ;;
  ret output.

Definition generateThumbnail (env : Env) (object : ObjectMetadata) : M unit :=
  let filePath := name object in
  let contentType := contentType object in
  if negb (startsWith contentType (lit "image/"))
     && negb (startsWith contentType (lit "video/"))
  then ret tt
  else
    let fileDir := Path.dirname filePath in
    let fileName := Path.basename filePath in
    let tempLocalFile := Path.join [os_tmpdir; filePath] in
    let tempLocalDir := Path.dirname tempLocalFile in
    mkdirp env tempLocalDir ;;
    download env (bucket object) filePath tempLocalFile ;;
    if startsWith contentType (lit "image/") then
      if startsWith fileName THUMB_PREFIX then ret tt
      else
        let thumbFilePath :=
          Path.normalize (Path.join [fileDir; THUMB_PREFIX ++ fileName]) in
        let tempLocalThumbFile := Path.join [os_tmpdir; thumbFilePath] in
        call_creating env
          (Spawn (lit "convert")
             [tempLocalFile; lit "-thumbnail";
              thumbnailBox THUMB_MAX_WIDTH THUMB_MAX_HEIGHT; tempLocalThumbFile])
          tempLocalThumbFile ;;
        upload env (bucket object) tempLocalThumbFile
          (thumbOptions thumbFilePath contentType) ;;
        unlinkSync tempLocalThumbFile ;;
        unlinkSync tempLocalFile
    else if startsWith contentType (lit "video/") then
      codec <- getCodec env tempLocalFile ;;
      if match codec with
         | Some c => str_eqb c (lit "h264")
         | None => false
         end
      then ret tt
      else if endsWith fileName (lit "_output.mp4") then ret tt
      else
        let mp4FilePath :=
          Path.normalize
            (Path.join [fileDir; replace_ext fileName [] ++ lit "_output.mp4"]) in
        let targetTempFilePath := Path.join [os_tmpdir; mp4FilePath] in
        convertFile env tempLocalFile targetTempFilePath ;;
        upload env (bucket object) targetTempFilePath (mp4Options mp4FilePath) ;;
        unlinkSync targetTempFilePath ;;
        unlinkSync tempLocalFile
    else ret tt.

Definition handle (env : Env) (object : ObjectMetadata) : Outcome unit * World :=
  generateThumbnail env object initial.

End Legacy.

(** ** Classification and naming, as the trigger performs them *)

Inductive ArtifactKind := Thumbnail | Transcode | Preview | Poster.

(** The eligibility test at the head of the trigger. *)
Definition isEligible (contentType : str) : bool :=
  is_image contentType || is_video contentType.

(** The two guards that stop the trigger on an object it produced itself:
    the one of the image branch and the one of the video branch. *)
Definition isAlreadyDerived (key contentType : str) : bool :=
  let fileName := Path.basename key in
  if is_image contentType then
    startsWith (toLowerCase fileName) THUMB_PREFIX
    || endsWith (toLowerCase fileName) (lit "_poster.jpg")
  else if is_video contentType then
    endsWith (toLowerCase fileName) (lit "_output.mp4")
  else false.

(** The destination of the upload of each kind of artifact. *)
Definition derivedKey (key : str) (k : ArtifactKind) : str :=
  match k with
  | Thumbnail => thumbFilePath_of key
  | Transcode => mp4FilePath_of key
  | Preview => mp4FilePathThumb_of key
  | Poster => remotePath_of key
  end.

(** The scratch copy of the inbound object. *)
Definition tempLocalFile_of (object : ObjectMetadata) : str :=
  Path.join [os_tmpdir; name object].

Definition requests (w : World) : list Request := map fst (trace w).

Definition is_download (r : Request) : bool :=
  match r with Download _ _ _ => true | _ => false end.

Definition is_upload (r : Request) : bool :=
  match r with Upload _ _ _ => true | _ => false end.

(** A transform is a run of ImageMagick or of ffmpeg. *)
Definition is_transform (r : Request) : bool :=
  match r with Spawn _ _ | Ffmpeg _ => true | _ => false end.

Definition count (f : Request -> bool) (w : World) : nat :=
  List.length (filter f (requests w)).

Definition downloads : World -> nat := count is_download.
Definition uploads : World -> nat := count is_upload.
Definition transforms : World -> nat := count is_transform.

Definition dimensions_of (s : Stream.t) : Dimensions :=
  {| width := Stream.width s; height := Stream.height s |}.

(** ** The preview scale in exact arithmetic *)

(** One axis as the formula reads over the rationals. *)
Definition axisQ (t d : Z) : Q :=
  if d >? t
  then (100 - ((inject_Z d - inject_Z t) / inject_Z d) * 100)%Q
  else 0%Q.

Definition min_Q (a b : Q) : Q := if Qlt_le_dec a b then a else b.

Definition exact_scale (h w : Z) : Z :=
  Qfloor (min_Q (axisQ 480 h) (axisQ 425 w)).

(** The frame sizes over which the binary64 computation is compared with
    the exact one. *)
Definition MAX_DIMENSION : Z := 65536.

(** A number that is [+0] or a positive normal binary64 value. *)
Definition plain (x : number) : bool :=
  match x with
  | S754_zero false => true
  | S754_finite false m _ => Pos.eqb (digits2_pos m) 53
  | _ => false
  end.

(** The formula of one axis on the primitive binary64 numbers of the
    kernel, which evaluate fast; [FloatAxioms] relates them to [SpecFloat]. *)
Definition prim_num (z : Z) : PrimFloat.float :=
  PrimFloat.of_uint63 (Uint63.of_Z z).

Definition prim_axis (t d : Z) : PrimFloat.float :=
  if d >? t
  then PrimFloat.sub (prim_num 100)
         (PrimFloat.mul
            (PrimFloat.div (PrimFloat.sub (prim_num d) (prim_num t)) (prim_num d))
            (prim_num 100))
  else prim_num 0.

(** On one axis the binary64 value is plain and has the floor of the
    exact value. *)
Definition axis_ok (t d : Z) : bool :=
  plain (FloatOps.Prim2SF (prim_axis t d))
  && (Math_floor (FloatOps.Prim2SF (prim_axis t d)) =? Qfloor (axisQ t d)).

(** [all_from f n d] checks [f d], [f (d + 1)], ..., [n] values in all. *)
Fixpoint all_from (f : Z -> bool) (n : nat) (d : Z) : bool :=
  match n with
  | O => true
  | S k => f d && all_from f k (d + 1)
  end.

(** ** Rounding to binary64, in integers *)

(** [Number.MAX_VALUE] *)
Definition MAX_VALUE : Z := (2 ^ 53 - 1) * 2 ^ 971.

(** The bits that [shr] keeps of the fraction [N / D] below its integer
    part: the first one, and whether anything follows it. *)
Definition frac_r (N D : Z) : bool := D <=? 2 * (N mod D).
Definition frac_s (N D : Z) : bool := negb ((2 * (N mod D)) mod D =? 0).

Definition rec_ok (N D : Z) (mrs : shr_record) : Prop :=
  shr_m mrs = N / D /\ shr_r mrs = frac_r N D /\ shr_s mrs = frac_s N D.

(** Where [N / D] lies between its integer part and the next integer. *)
Definition loc_frac (N D : Z) : location :=
  if N mod D =? 0 then loc_Exact else loc_Inexact (2 * (N mod D) ?= D).

(** The finite number with mantissa [m] and exponent [e], or the infinity
    when the exponent is out of range. *)
Definition fin (m e : Z) : number :=
  if e <=? 971 then S754_finite false (Z.to_pos m) e else S754_infinity false.

(** The result of rounding, from the rounded 53-digit mantissa: after a
    carry into a 54th digit the mantissa is halved. *)
Definition rounded (m2 e1 : Z) : number :=
  if m2 <? 2 ^ 53 then fin m2 e1 else fin (2 ^ 52) (e1 + 1).

(** The value of a positive finite number, in units of [2 ^ -1074]. *)
Definition ulps (x : number) : Z :=
  match x with
  | S754_finite false m e => Z.pos m * 2 ^ (e + 1074)
  | _ => 0
  end.

(** A positive normal number. *)
Definition normal (x : number) : bool :=
  match x with
  | S754_finite false m e =>
      (Z.pos (digits2_pos m) =? 53) && (-1074 <=? e) && (e <=? 971)
  | _ => false
  end.

(** What rounding does to an exact value of [A / B] units: the result [F]
    is normal unless it overflows, and it stays on the same side of every
    number [m * 2 ^ k] as the exact value. *)
Definition rounds_to (A B : Z) (F : number) : Prop :=
  (F = S754_infinity false \/ normal F = true)
  /\ (normal F = true ->
      forall m k, 0 <= m <= 2 ^ 53 -> 0 <= k -> m * 2 ^ k * B <= A ->
                  m * 2 ^ k <= ulps F)
  /\ (forall m k, 0 <= m < 2 ^ 53 -> 0 <= k <= 2045 -> A <= m * 2 ^ k * B ->
                  normal F = true /\ ulps F <= m * 2 ^ k).

Definition is_video_stream (s : Stream.t) : bool :=
  str_eqb (Stream.codec_type s) (lit "video").

(** The scratch path of the poster frame. *)
Definition posterLocal_of (object : ObjectMetadata) : str :=
  Path.join [os_tmpdir; remotePath_of (name object)].

(** A path component that [normalize] keeps as it is. *)
Definition plain_seg (x : str) : Prop :=
  forallb Path.not_slash x = true /\ (3 <= List.length x)%nat.

(** A prefix that is empty or ends with a separator. *)
Definition slash_ended (P : str) : Prop := P = [] \/ exists P0, P = P0 ++ [slash].

(** The local file a transform writes. *)
Definition produced (r : Request) : option str :=
  match r with
  | Spawn _ args => Some (List.last args [])
  | Ffmpeg c => Some (output c)
  | _ => None
  end.

Definition is_probe (r : Request) : bool :=
  match r with Ffprobe _ => true | _ => false end.

Definition probes : World -> nat := count is_probe.

(** The probes of [getDimentions]: the only probe of an image, and for a
    video every probe after the one of [getCodec], which is the third call
    of the run. *)
Definition is_dimension_probe (object : ObjectMetadata) (i : nat) (r : Request)
  : bool :=
  is_probe r && (is_image (contentType object) || negb (Nat.eqb i 2)).

(** ** Sample runs *)

Definition video_stream (codec : string) (w h : Z) : Stream.t :=
  Stream.mk (lit "video") (lit codec) (Some w) (Some h).

Definition audio_stream : Stream.t :=
  Stream.mk (lit "audio") (lit "aac") None None.

(** Every call succeeds and ffprobe reports one video stream. *)
Definition env_ok (codec : string) (w h : Z) : Env :=
  {| io := fun _ _ => None;
     ffprobe := fun _ _ => inr {| streams := [video_stream codec w h] |} |}.

(** ffprobe cannot read the file. *)
Definition env_probe_error : Env :=
  {| io := fun _ _ => None;
     ffprobe := fun _ _ => inl "ffprobe exited with code 1"%string |}.

(** ffprobe reports an audio stream only. *)
Definition env_audio_only : Env :=
  {| io := fun _ _ => None;
     ffprobe := fun _ _ => inr {| streams := [audio_stream] |} |}.

(** ffprobe reports a container without any stream. *)
Definition env_no_stream : Env :=
  {| io := fun _ _ => None;
     ffprobe := fun _ _ => inr {| streams := [] |} |}.

(** The conversion to mp4 fails; everything else succeeds. *)
Definition env_convert_fails : Env :=
  {| io := fun _ r =>
             match r with
             | Ffmpeg c =>
                 match format c with
                 | Some _ => Some "ffmpeg exited with code 1"%string
                 | None => None
                 end
             | _ => None
             end;
     ffprobe := fun _ _ => inr {| streams := [video_stream "mpeg4" 850 960] |} |}.

Definition object_of (n ct : string) : ObjectMetadata :=
  {| name := lit n; bucket := lit "media"; contentType := lit ct |}.

Definition clip_mov : ObjectMetadata := object_of "videos/clip.mov" "video/quicktime".
Definition clip_noext : ObjectMetadata := object_of "videos/clip" "video/quicktime".
Definition cat_png : ObjectMetadata := object_of "pics/cat.png" "image/png".
Definition thumb_png : ObjectMetadata := object_of "pics/thumb_cat.png" "image/png".
Definition notes_txt : ObjectMetadata := object_of "docs/notes.txt" "text/plain".

(** * Properties *)

(** ** Running the trigger symbolically *)

Ltac exec_in H :=
  cbv beta iota zeta delta
    [handle generateThumbnail Legacy.handle Legacy.generateThumbnail
     bind ret call call_creating probe await unlinkSync log create snoc
     mkdirp download upload getCodec getDimentions convertFile createPoster
     createPosterFromVideo Legacy.getCodec Legacy.convertFile initial
     files trace List.length] in H.

(** The term whose value decides the next step of a run. *)
Ltac scrut t :=
  lazymatch t with
  | match ?x with _ => _ end => scrut x
  | (match ?x with _ => _ end) _ => scrut x
  | _ => constr:(t)
  end.

Ltac step H :=
  lazymatch type of H with
  | ?lhs = _ =>
      lazymatch lhs with
      | (_, _) => fail
      | _ => let x := scrut lhs in
             let E := fresh "E" in
             lazymatch x with
             | context [ffprobe ?e ?n ?f] =>
                 destruct (ffprobe e n f) eqn:E;
                 cbv beta iota zeta delta
                   [getCodec_settle getDimentions_settle reject resolve] in H
             | _ => destruct x eqn:E; cbv beta iota zeta in H
             end
      end
  end.

(** All the runs of the trigger, one goal per run. *)
Ltac run H := exec_in H; repeat step H; injection H as <- <-.

Ltac nth_cases i Hn :=
  cbv [trace] in Hn;
  repeat (destruct i as [|i]; cbn [nth_error] in Hn; try discriminate Hn).

Ltac counts :=
  cbv [downloads uploads transforms count requests map filter is_download
       is_upload is_transform fst trace List.length].

(** ** Sample runs, evaluated *)

(** A 960 by 850 video that is not h264: transcode, poster, preview at
    50%, and the scratch files removed one by one. *)
Example run_clip_mov :
  handle (env_ok "mpeg4" 850 960) clip_mov
  = (Done tt,
     {| files := [];
        trace :=
          map (fun r => (r, Ok))
            [Mkdirp (lit "/tmp/videos");
             Download (lit "media") (lit "videos/clip.mov") (lit "/tmp/videos/clip.mov")]
          ++ [(Ffprobe (lit "/tmp/videos/clip.mov"),
               Probed {| streams := [video_stream "mpeg4" 850 960] |})]
          ++ map (fun r => (r, Ok))
               [Ffmpeg (convertCommand (lit "/tmp/videos/clip.mov")
                          (lit "/tmp/videos/clip_output.mp4") (lit "100%"));
                Upload (lit "media") (lit "/tmp/videos/clip_output.mp4")
                  (mp4Options (lit "videos/clip_output.mp4"));
                UnlinkSync (lit "/tmp/videos/clip_output.mp4");
                Ffmpeg (posterCommand (lit "/tmp/videos/clip.mov")
                          (lit "/tmp/videos/clip_poster.jpg"));
                Upload (lit "media") (lit "/tmp/videos/clip_poster.jpg")
                  (posterOptions (lit "videos/clip_poster.jpg"));
                UnlinkSync (lit "/tmp/videos/clip_poster.jpg")]
          ++ [(Ffprobe (lit "/tmp/videos/clip.mov"),
               Probed {| streams := [video_stream "mpeg4" 850 960] |})]
          ++ map (fun r => (r, Ok))
               [Ffmpeg (convertCommand (lit "/tmp/videos/clip.mov")
                          (lit "/tmp/videos/clip_thumb_output.mp4") (lit "50%"));
                Upload (lit "media") (lit "/tmp/videos/clip_thumb_output.mp4")
                  (mp4Options (lit "videos/clip_thumb_output.mp4"));
                UnlinkSync (lit "/tmp/videos/clip_thumb_output.mp4");
                UnlinkSync (lit "/tmp/videos/clip.mov")] |}).
Proof. vm_compute. reflexivity. Qed.

(** A 640 by 480 image: one thumbnail in a 300x300 box. *)
Example run_cat_png :
  requests (snd (handle (env_ok "png" 640 480) cat_png))
  = [Mkdirp (lit "/tmp/pics");
     Download (lit "media") (lit "pics/cat.png") (lit "/tmp/pics/cat.png");
     Ffprobe (lit "/tmp/pics/cat.png");
     Spawn (lit "convert")
       [lit "/tmp/pics/cat.png"; lit "-thumbnail"; lit "300x300>";
        lit "/tmp/pics/thumb_cat.png"];
     Upload (lit "media") (lit "/tmp/pics/thumb_cat.png")
       (thumbOptions (lit "pics/thumb_cat.png") (lit "image/png"));
     UnlinkSync (lit "/tmp/pics/thumb_cat.png");
     UnlinkSync (lit "/tmp/pics/cat.png")].
Proof. vm_compute. reflexivity. Qed.

(** The older variant on the same image: no probe, a 200x200 box. *)
Example legacy_run_cat_png :
  requests (snd (Legacy.handle (env_ok "png" 640 480) cat_png))
  = [Mkdirp (lit "/tmp/pics");
     Download (lit "media") (lit "pics/cat.png") (lit "/tmp/pics/cat.png");
     Spawn (lit "convert")
       [lit "/tmp/pics/cat.png"; lit "-thumbnail"; lit "200x200>";
        lit "/tmp/pics/thumb_cat.png"];
     Upload (lit "media") (lit "/tmp/pics/thumb_cat.png")
       (thumbOptions (lit "pics/thumb_cat.png") (lit "image/png"));
     UnlinkSync (lit "/tmp/pics/thumb_cat.png");
     UnlinkSync (lit "/tmp/pics/cat.png")].
Proof. vm_compute. reflexivity. Qed.

(** Node's documented results for the path functions. *)
Example path_samples :
  Path.dirname (lit "a/b/c.png") = lit "a/b"
  /\ Path.dirname (lit "c.png") = lit "."
  /\ Path.dirname (lit "/c.png") = lit "/"
  /\ Path.dirname (lit "a//c") = lit "a/"
  /\ Path.basename (lit "a/b/c.png") = lit "c.png"
  /\ Path.basename (lit "a/b/") = lit "b"
  /\ Path.normalize (lit "/foo/bar//baz/asdf/quux/..") = lit "/foo/bar/baz/asdf"
  /\ Path.normalize (lit "a/../../b/./c/") = lit "../b/c/"
  /\ Path.join [lit "/foo"; lit "bar"; lit "baz/asdf"; lit "quux"; lit ".."]
     = lit "/foo/bar/baz/asdf"
  /\ Path.join [lit "."; lit "clip"] = lit "clip"
  /\ replace_ext (lit "clip.mov") (lit "_output.mp4") = lit "clip_output.mp4"
  /\ replace_ext (lit "a.b.c") (lit "_output.mp4") = lit "a.b_output.mp4"
  /\ replace_ext (lit "clip") (lit "_output.mp4") = lit "clip"
  /\ replace_ext (lit "v1.2/clip") (lit "_poster.jpg") = lit "v1.2/clip".
Proof. vm_compute. repeat split; reflexivity. Qed.

(** ** Strings *)

Lemma str_eqb_refl s : str_eqb s s = true.
Proof.
  induction s as [|c s IH]; [reflexivity|]. cbn [str_eqb].
  unfold chr_eqb. now rewrite Ascii.eqb_refl.
Qed.

Lemma startsWith_lower s p :
  startsWith s p = true -> startsWith (toLowerCase s) (toLowerCase p) = true.
Proof.
  revert s; induction p as [|y p IH]; intros [|x s]; cbn; try easy.
  intros H. apply andb_true_iff in H as [H1 H2].
  apply andb_true_iff; split; [|now apply IH].
  unfold chr_eqb in *. apply Ascii.eqb_eq in H1. subst. apply Ascii.eqb_refl.
Qed.

Lemma video_not_image ct : is_video ct = true -> is_image ct = false.
Proof.
  unfold is_video, is_image. destruct (toLowerCase ct) as [|c s]; [discriminate|].
  cbn [lit list_ascii_of_string startsWith]. intros H.
  apply andb_true_iff in H as [H _]. apply Ascii.eqb_eq in H. subst c. reflexivity.
Qed.

Lemma mem_remove f l : mem f (remove f l) = false.
Proof.
  induction l as [|g l IH]; cbn; [reflexivity|].
  destruct (str_eqb f g) eqn:E; [exact IH|]. cbn. now rewrite E, IH.
Qed.

Lemma forallb_rev {A} (f : A -> bool) l : forallb f (rev l) = forallb f l.
Proof.
  induction l as [|x l IH]; [reflexivity|]. cbn. rewrite forallb_app, IH. cbn.
  rewrite andb_true_r. apply andb_comm.
Qed.


Lemma replace_ext_none s r : has_ext s = false -> replace_ext s r = s.
Proof.
  induction s as [|c rest IH]; [reflexivity|].
  cbn [has_ext replace_ext]. intros H. apply orb_false_iff in H as [H1 H2].
  rewrite H1. now rewrite IH.
Qed.

(** A match of the extension pattern is a dot followed by a non-empty
    run of characters other than the dot and the separator, up to the end. *)
Lemma has_ext_split s :
  has_ext s = true ->
  exists pre rest, s = pre ++ dot :: rest /\ rest <> []
                   /\ forallb not_slash_dot rest = true.
Proof.
  induction s as [|c rest IH]; [discriminate|].
  cbn [has_ext]. intros H. apply orb_true_iff in H as [H|H].
  - unfold ext_here in H. apply andb_true_iff in H as [H1 H2].
    apply Ascii.eqb_eq in H1. subst c.
    exists [], rest. destruct rest; [discriminate|]. repeat split; [discriminate|exact H2].
  - destruct (IH H) as (pre & rest' & -> & Hne & Hall).
    exists (c :: pre), rest'. repeat split; assumption.
Qed.



Lemma startsWith_app p s : startsWith (p ++ s) p = true.
Proof.
  induction p as [|c p IH]; [destruct s; reflexivity|]. cbn [app startsWith].
  unfold chr_eqb. now rewrite Ascii.eqb_refl.
Qed.

Lemma endsWith_app pre r : endsWith (pre ++ r) r = true.
Proof. unfold endsWith. rewrite rev_app_distr. apply startsWith_app. Qed.

(** ** Paths *)

Section While.
Context {A : Type} (f : A -> bool).




Lemma takeWhile_app_all l l2 :
  forallb f l = true -> Path.takeWhile f (l ++ l2) = l ++ Path.takeWhile f l2.
Proof.
  induction l as [|y l IH]; cbn; [reflexivity|].
  destruct (f y); [intros H; now rewrite IH|discriminate].
Qed.

End While.



Lemma not_slash_dot_not_slash l :
  forallb not_slash_dot l = true -> forallb Path.not_slash l = true.
Proof.
  induction l as [|c l IH]; [reflexivity|]. cbn. intros H.
  apply andb_true_iff in H as [H1 H2]. unfold not_slash_dot in H1.
  apply andb_true_iff in H1 as [H1 _].
  unfold Path.not_slash, is_slash. rewrite H1. now apply IH.
Qed.





Lemma dirname_nonempty k : Path.dirname k <> [].
Proof.
  unfold Path.dirname. destruct k as [|c0 tl]; [discriminate|].
  destruct (Path.dropWhile _ _) as [|s [|b bs]]; destruct (is_slash c0); discriminate.
Qed.


Lemma join_two d b :
  d <> [] -> b <> [] -> Path.join [d; b] = Path.normalize (d ++ slash :: b).
Proof.
  intros Hd Hb. unfold Path.join.
  destruct d; [contradiction|]. destruct b; [contradiction|]. reflexivity.
Qed.



Lemma split_acc_app cur p q :
  Path.split_acc cur (p ++ slash :: q) = Path.split_acc cur p ++ Path.split q.
Proof.
  revert cur; induction p as [|c p IH]; intros cur; cbn [app Path.split_acc].
  - reflexivity.
  - destruct (is_slash c); [cbn [app]; f_equal; apply IH|apply IH].
Qed.

Lemma split_acc_plain cur x :
  forallb Path.not_slash x = true -> Path.split_acc cur x = [rev cur ++ x].
Proof.
  revert cur; induction x as [|c x IH]; intros cur H; cbn [Path.split_acc].
  - now rewrite app_nil_r.
  - cbn [forallb] in H. apply andb_true_iff in H as [Hc H].
    unfold Path.not_slash in Hc. apply negb_true_iff in Hc. rewrite Hc.
    rewrite IH by exact H. cbn [rev]. now rewrite <- app_assoc.
Qed.

Lemma resolve_app a st l1 l2 :
  Path.resolve a st (l1 ++ l2) = Path.resolve a (Path.resolve a st l1) l2.
Proof.
  revert st; induction l1 as [|s l1 IH]; intros st; [reflexivity|].
  cbn [app Path.resolve].
  destruct (str_eqb s [] || str_eqb s [dot]); [apply IH|].
  destruct (str_eqb s Path.dotdot); [|apply IH].
  destruct st as [|top below]; [apply IH|].
  destruct (str_eqb top Path.dotdot); apply IH.
Qed.

Lemma plain_seg_kept a st x :
  plain_seg x -> Path.resolve a st [x] = x :: st.
Proof.
  intros [_ H]. destruct x as [|c1 [|c2 [|c3 x]]]; cbn in H; try lia.
  cbn [Path.resolve str_eqb Path.dotdot]. rewrite !andb_false_r. reflexivity.
Qed.

Lemma unsplit_snoc l x :
  Path.unsplit (l ++ [x])
  = match l with [] => x | _ :: _ => Path.unsplit l ++ slash :: x end.
Proof.
  induction l as [|s l IH]; [reflexivity|].
  destruct l as [|s' l]; [reflexivity|].
  change ((s :: s' :: l) ++ [x]) with (s :: ((s' :: l) ++ [x])).
  cbn [Path.unsplit app] in *. rewrite IH. now rewrite <- app_assoc.
Qed.

Lemma last_is_slash_plain p x :
  x <> [] -> forallb Path.not_slash x = true -> Path.last_is_slash (p ++ x) = false.
Proof.
  intros Hx Hall. unfold Path.last_is_slash. rewrite rev_app_distr.
  rewrite <- forallb_rev in Hall.
  destruct (rev x) as [|c r] eqn:E.
  - apply (f_equal (@rev _)) in E. rewrite rev_involutive in E. contradiction.
  - cbn [app]. cbn [forallb] in Hall. apply andb_true_iff in Hall as [Hc _].
    unfold Path.not_slash in Hc. now apply negb_true_iff in Hc.
Qed.

Lemma plain_seg_nonempty x : plain_seg x -> x <> [].
Proof. intros [_ H] ->. cbn in H. lia. Qed.

(** [normalize] keeps a plain last component in place. *)
Lemma normalize_keeps_last s x :
  plain_seg x -> (s = x \/ exists p, s = p ++ slash :: x) ->
  exists P, Path.normalize s = P ++ x /\ slash_ended P.
Proof.
  intros Hx Hs. pose proof (plain_seg_nonempty x Hx) as Hne.
  destruct Hx as [Hall Hlen].
  assert (Hsplit : exists segs, Path.split s = segs ++ [x]).
  { destruct Hs as [->|[p ->]].
    - exists []. unfold Path.split. now rewrite split_acc_plain.
    - exists (Path.split p). unfold Path.split. rewrite split_acc_app.
      unfold Path.split. now rewrite (split_acc_plain [] x). }
  assert (Hlast : Path.last_is_slash s = false).
  { destruct Hs as [->|[p ->]].
    - now apply (last_is_slash_plain [] x).
    - change (p ++ slash :: x) with (p ++ [slash] ++ x). rewrite app_assoc.
      now apply last_is_slash_plain. }
  assert (Hs0 : s <> []).
  { destruct Hs as [->|[p ->]]; [exact Hne|]. now destruct p. }
  destruct Hsplit as [segs Hsplit].
  unfold Path.normalize. destruct s as [|c0 s']; [contradiction|].
  rewrite Hlast, Hsplit, resolve_app.
  rewrite (plain_seg_kept _ _ x (conj Hall Hlen)).
  cbn [rev]. rewrite unsplit_snoc.
  set (st := rev (Path.resolve (negb (is_slash c0)) [] segs)). clearbody st.
  destruct st as [|t st'].
  - destruct x as [|c x']; [contradiction|].
    destruct (is_slash c0).
    + exists [slash]. split; [reflexivity|]. right. now exists [].
    + exists []. split; [reflexivity|]. now left.
  - set (u := Path.unsplit (t :: st')). clearbody u.
    destruct (u ++ slash :: x) as [|c b] eqn:E.
    { destruct u; discriminate E. }
    rewrite <- E. clear E.
    destruct (is_slash c0).
    + exists (slash :: u ++ [slash]). split.
      * cbn [app]. now rewrite <- app_assoc.
      * right. now exists (slash :: u).
    + exists (u ++ [slash]). split.
      * now rewrite <- app_assoc.
      * right. now exists u.
Qed.

Lemma basename_after_prefix P x :
  x <> [] -> forallb Path.not_slash x = true ->
  Path.basename (P ++ x) = rev (Path.takeWhile Path.not_slash (rev P)) ++ x.
Proof.
  intros Hx Hall. unfold Path.basename. rewrite rev_app_distr.
  rewrite <- forallb_rev in Hall.
  destruct (rev x) as [|c r] eqn:E.
  - apply (f_equal (@rev _)) in E. rewrite rev_involutive in E. contradiction.
  - pose proof Hall as Hall'.
    cbn [forallb] in Hall. apply andb_true_iff in Hall as [Hc _].
    unfold Path.not_slash in Hc. apply negb_true_iff in Hc.
    cbn [app Path.dropWhile]. rewrite Hc.
    change (c :: r ++ rev P) with ((c :: r) ++ rev P).
    rewrite (takeWhile_app_all _ _ _ Hall'). rewrite rev_app_distr.
    rewrite <- E, rev_involutive. reflexivity.
Qed.

Lemma basename_slash_ended P x :
  slash_ended P -> x <> [] -> forallb Path.not_slash x = true ->
  Path.basename (P ++ x) = x.
Proof.
  intros HP Hx Hall. rewrite basename_after_prefix by assumption.
  destruct HP as [->|[P0 ->]]; [reflexivity|].
  rewrite rev_app_distr. reflexivity.
Qed.

(** The base name of [normalize (join [d; x])] for a plain component [x]. *)
Lemma basename_normalize_join d x :
  d <> [] -> plain_seg x ->
  Path.basename (Path.normalize (Path.join [d; x])) = x.
Proof.
  intros Hd Hx. pose proof (plain_seg_nonempty x Hx) as Hne.
  rewrite join_two by assumption.
  destruct (normalize_keeps_last (d ++ slash :: x) x Hx) as (P & -> & HP).
  { right. now exists d. }
  destruct (normalize_keeps_last (P ++ x) x Hx) as (P' & -> & HP').
  { destruct HP as [->|[P0 ->]]; [now left|right]. exists P0.
    now rewrite <- app_assoc. }
  apply basename_slash_ended; [exact HP'|exact Hne|apply Hx].
Qed.

Lemma takeWhile_all {A} (f : A -> bool) l : forallb f (Path.takeWhile f l) = true.
Proof.
  induction l as [|x l IH]; [reflexivity|]. cbn [Path.takeWhile].
  destruct (f x) eqn:E; [|reflexivity]. cbn [forallb]. now rewrite E.
Qed.

Lemma basename_no_slash k : forallb Path.not_slash (Path.basename k) = true.
Proof. unfold Path.basename. rewrite forallb_rev. apply takeWhile_all. Qed.

Lemma toLowerCase_app a b : toLowerCase (a ++ b) = toLowerCase a ++ toLowerCase b.
Proof. apply map_app. Qed.

(** The replacement keeps a prefix of the string and puts [r] after it. *)
Lemma replace_ext_prefix s r :
  has_ext s = true -> exists pre suf, s = pre ++ suf /\ replace_ext s r = pre ++ r.
Proof.
  induction s as [|c rest IH]; [discriminate|].
  cbn [has_ext replace_ext]. destruct (ext_here (c :: rest)).
  - intros _. now exists [], (c :: rest).
  - cbn [orb]. intros H. destruct (IH H) as (pre & suf & -> & ->).
    now exists (c :: pre), suf.
Qed.

Lemma suffixed_plain pre r :
  forallb Path.not_slash pre = true -> forallb Path.not_slash r = true ->
  (3 <= List.length r)%nat -> plain_seg (pre ++ r).
Proof.
  intros H1 H2 H3. split.
  - rewrite forallb_app, H1, H2. reflexivity.
  - rewrite length_app. lia.
Qed.

(** ** Numbers *)

Lemma all_from_spec f n lo :
  all_from f n lo = true -> forall d, lo <= d < lo + Z.of_nat n -> f d = true.
Proof.
  revert lo; induction n as [|k IH]; intros lo H d Hd; [lia|].
  cbn [all_from] in H. apply andb_true_iff in H as [H1 H2].
  destruct (Z.eq_dec d lo) as [->|Hne]; [exact H1|].
  apply (IH (lo + 1)); [exact H2|lia].
Qed.

Lemma digits2_pos_bounds m :
  2 ^ (Z.pos (digits2_pos m) - 1) <= Z.pos m < 2 ^ Z.pos (digits2_pos m).
Proof.
  induction m as [m IH|m IH|]; cbn [digits2_pos].
  - rewrite Pos2Z.inj_succ.
    replace (Z.succ (Z.pos (digits2_pos m)) - 1)
      with (Z.succ (Z.pos (digits2_pos m) - 1)) by lia.
    rewrite !Z.pow_succ_r by lia. lia.
  - rewrite Pos2Z.inj_succ.
    replace (Z.succ (Z.pos (digits2_pos m)) - 1)
      with (Z.succ (Z.pos (digits2_pos m) - 1)) by lia.
    rewrite !Z.pow_succ_r by lia. lia.
  - cbn. lia.
Qed.

Lemma shiftl_mono a b e : a <= b -> Z.shiftl a e <= Z.shiftl b e.
Proof.
  intros H. destruct (Z.le_ge_cases 0 e) as [He|He].
  - rewrite !Z.shiftl_mul_pow2 by exact He.
    apply Z.mul_le_mono_nonneg_r; [apply Z.pow_nonneg; lia|exact H].
  - rewrite !Z.shiftl_div_pow2 by exact He.
    apply Z.div_le_mono; [apply Z.pow_pos_nonneg; lia|exact H].
Qed.

(** Of two positive normal numbers the one with the smaller exponent has
    the smaller floor. *)
Lemma floor_lt_exp m1 e1 m2 e2 :
  Pos.eqb (digits2_pos m1) 53 = true -> Pos.eqb (digits2_pos m2) 53 = true ->
  e1 < e2 -> Z.shiftl (Z.pos m1) e1 <= Z.shiftl (Z.pos m2) e2.
Proof.
  intros D1 D2 He. apply Pos.eqb_eq in D1, D2.
  pose proof (digits2_pos_bounds m1) as B1. pose proof (digits2_pos_bounds m2) as B2.
  rewrite D1 in B1. rewrite D2 in B2.
  replace e2 with ((e2 - e1) + e1) by lia.
  rewrite <- Z.shiftl_shiftl by lia.
  apply shiftl_mono. rewrite Z.shiftl_mul_pow2 by lia.
  assert (2 ^ 1 <= 2 ^ (e2 - e1)) by (apply Z.pow_le_mono_r; lia).
  change (2 ^ 53) with (2 * 2 ^ (53 - 1)) in B1.
  change (2 ^ 1) with 2 in H. nia.
Qed.

(** [Math.floor(a < b ? a : b)] is the smaller of the two floors. *)
Lemma floor_min a b :
  plain a = true -> plain b = true ->
  Math_floor (if num_ltb a b then a else b) = Z.min (Math_floor a) (Math_floor b).
Proof.
  intros Pa Pb.
  destruct a as [[|]|[|]| |[|] m1 e1]; try discriminate Pa;
  destruct b as [[|]|[|]| |[|] m2 e2]; try discriminate Pb;
  cbn [plain] in Pa, Pb; unfold num_ltb, SFltb, SFcompare; cbv beta iota;
  cbn [Math_floor cond_Zopp].
  - reflexivity.
  - pose proof (Z.shiftl_nonneg (Z.pos m2) e2). lia.
  - pose proof (Z.shiftl_nonneg (Z.pos m1) e1). lia.
  - destruct (Z.compare_spec e1 e2) as [->|Hlt|Hgt].
    + change (PosDef.Pos.compare_cont Eq m1 m2) with (Pos.compare m1 m2).
      destruct (Pos.compare_spec m1 m2) as [->|Hm|Hm]; cbn [Math_floor cond_Zopp].
      * lia.
      * pose proof (shiftl_mono (Z.pos m1) (Z.pos m2) e2 ltac:(lia)). lia.
      * pose proof (shiftl_mono (Z.pos m2) (Z.pos m1) e2 ltac:(lia)). lia.
    + cbn [Math_floor cond_Zopp].
      pose proof (floor_lt_exp m1 e1 m2 e2 Pa Pb Hlt). lia.
    + cbn [Math_floor cond_Zopp].
      pose proof (floor_lt_exp m2 e2 m1 e1 Pb Pa Hgt). lia.
Qed.

Lemma Qfloor_min a b :
  Qfloor (min_Q a b) = Z.min (Qfloor a) (Qfloor b).
Proof.
  unfold min_Q. destruct (Qlt_le_dec a b) as [H|H].
  - apply Qlt_le_weak, Qfloor_resp_le in H. lia.
  - apply Qfloor_resp_le in H. lia.
Qed.

(** ** Rounding to binary64 *)

(** [shr] keeps of a fraction its integer part and two bits. *)
Lemma div_mod_double N D :
  0 < D -> N / (2 * D) = (N / D) / 2 /\ N mod (2 * D) = D * ((N / D) mod 2) + N mod D.
Proof.
  intros HD. split.
  - rewrite (Z.mul_comm 2 D). rewrite Z.div_div by lia. reflexivity.
  - rewrite (Z.mul_comm 2 D). rewrite Z.rem_mul_r by lia. lia.
Qed.

Lemma shr_1_ok N D mrs :
  0 <= N -> 0 < D -> rec_ok N D mrs -> rec_ok N (2 * D) (shr_1 mrs).
Proof.
  intros HN HD (Hm & Hr & Hs). destruct mrs as [m r s]. cbn [shr_m shr_r shr_s] in *.
  destruct (div_mod_double N D HD) as [Eq Er].
  pose proof (Z.mod_pos_bound N D HD) as Hrho.
  pose proof (Z.div_pos N D HN HD) as Hq.
  pose proof (Z.mod_pos_bound (N / D) 2 ltac:(lia)) as Hb.
  pose proof (Z.div_mod (N / D) 2 ltac:(lia)) as Hd2.
  assert (Ers : r || s = negb (N mod D =? 0)).
  { subst r s. unfold frac_r, frac_s.
    destruct (Z.eqb_spec (N mod D) 0) as [E0|E0].
    - rewrite E0, Z.mul_0_r, Z.mod_0_l by lia.
      replace (D <=? 0) with false by (symmetry; apply Z.leb_gt; lia). reflexivity.
    - destruct (Z.leb_spec D (2 * (N mod D))) as [G|G]; [reflexivity|].
      rewrite Z.mod_small by lia.
      destruct (Z.eqb_spec (2 * (N mod D)) 0); [lia|reflexivity]. }
  assert (Es' : frac_s N (2 * D) = negb (N mod D =? 0)).
  { unfold frac_s. rewrite Er. f_equal.
    replace (2 * (D * ((N / D) mod 2) + N mod D))
      with (2 * (N mod D) + ((N / D) mod 2) * (2 * D)) by lia.
    rewrite Z.mod_add by lia.
    destruct (Z.eqb_spec (N mod D) 0) as [E0|E0].
    - rewrite E0, Z.mul_0_r, Z.mod_0_l by lia. reflexivity.
    - rewrite Z.mod_small by lia.
      destruct (Z.eqb_spec (2 * (N mod D)) 0); [lia|reflexivity]. }
  assert (Er' : frac_r N (2 * D) = Z.odd (N / D)).
  { unfold frac_r. rewrite Er.
    rewrite Zmod_odd in *. destruct (Z.odd (N / D)).
    - apply Z.leb_le. lia.
    - apply Z.leb_gt. lia. }
  unfold rec_ok. rewrite Eq, Er', Es', <- Ers, <- Hm, <- Z.div2_div.
  rewrite <- Hm in Hq.
  destruct m as [|[p|p|]|p]; try lia; repeat split; reflexivity.
Qed.

Lemma pow2_xI p : 2 ^ Z.pos p~1 = 2 ^ Z.pos p * (2 ^ Z.pos p * 2).
Proof.
  rewrite (Pos2Z.inj_xI p), Z.pow_add_r by lia.
  replace (2 * Z.pos p) with (Z.pos p + Z.pos p) by lia.
  rewrite Z.pow_add_r by lia. lia.
Qed.

Lemma pow2_xO p : 2 ^ Z.pos p~0 = 2 ^ Z.pos p * 2 ^ Z.pos p.
Proof.
  rewrite (Pos2Z.inj_xO p).
  replace (2 * Z.pos p) with (Z.pos p + Z.pos p) by lia.
  rewrite Z.pow_add_r by lia. lia.
Qed.

Lemma iter_pos_shr_ok N p :
  0 <= N -> forall D mrs, 0 < D -> rec_ok N D mrs ->
  rec_ok N (2 ^ Z.pos p * D) (iter_pos shr_1 p mrs).
Proof.
  intros HN. induction p as [p IH|p IH|]; intros D mrs HD H; cbn [iter_pos].
  - pose proof (Z.pow_pos_nonneg 2 (Z.pos p) ltac:(lia) ltac:(lia)) as P.
    replace (2 ^ Z.pos p~1 * D) with (2 ^ Z.pos p * (2 ^ Z.pos p * (2 * D)))
      by (rewrite pow2_xI; lia).
    apply IH; [nia|]. apply IH; [lia|]. now apply shr_1_ok.
  - pose proof (Z.pow_pos_nonneg 2 (Z.pos p) ltac:(lia) ltac:(lia)) as P.
    replace (2 ^ Z.pos p~0 * D) with (2 ^ Z.pos p * (2 ^ Z.pos p * D))
      by (rewrite pow2_xO; lia).
    apply IH; [nia|]. apply IH; [lia|exact H].
  - change (2 ^ 1) with 2. now apply shr_1_ok.
Qed.

Lemma rec_of_loc N D :
  0 < D -> rec_ok N D (shr_record_of_loc (N / D) (loc_frac N D)).
Proof.
  intros HD. pose proof (Z.mod_pos_bound N D HD) as Hrho.
  unfold loc_frac, rec_ok, frac_r, frac_s.
  destruct (Z.eqb_spec (N mod D) 0) as [E0|E0].
  - rewrite E0, Z.mul_0_r, Z.mod_0_l by lia. cbn [shr_record_of_loc shr_m shr_r shr_s].
    repeat split. symmetry. apply Z.leb_gt. lia.
  - destruct (Z.compare_spec (2 * (N mod D)) D) as [E|E|E];
      cbn [shr_record_of_loc shr_m shr_r shr_s]; repeat split.
    + symmetry. apply Z.leb_le. lia.
    + rewrite E, Z.mod_same by lia. reflexivity.
    + symmetry. apply Z.leb_gt. lia.
    + rewrite Z.mod_small by lia.
      destruct (Z.eqb_spec (2 * (N mod D)) 0); [lia|reflexivity].
    + symmetry. apply Z.leb_le. lia.
    + replace (2 * (N mod D)) with ((2 * (N mod D) - D) + 1 * D) by lia.
      rewrite Z.mod_add, Z.mod_small by lia.
      destruct (Z.eqb_spec (2 * (N mod D) - D) 0); [lia|reflexivity].
Qed.

Lemma loc_of_rec N D mrs :
  0 < D -> rec_ok N D mrs -> loc_of_shr_record mrs = loc_frac N D.
Proof.
  intros HD (Hm & Hr & Hs). destruct mrs as [m r s]. cbn [shr_m shr_r shr_s] in *.
  pose proof (Z.mod_pos_bound N D HD) as Hrho.
  unfold loc_frac. unfold frac_r in Hr. unfold frac_s in Hs.
  destruct (Z.leb_spec D (2 * (N mod D))) as [G|G]; subst r.
  - replace (2 * (N mod D)) with ((2 * (N mod D) - D) + 1 * D) in Hs by lia.
    rewrite Z.mod_add, Z.mod_small in Hs by lia.
    destruct (Z.eqb_spec (N mod D) 0) as [E0|E0]; [lia|].
    destruct (Z.eqb_spec (2 * (N mod D) - D) 0) as [E1|E1]; subst s;
      cbn [negb loc_of_shr_record].
    + replace (2 * (N mod D) ?= D) with Eq; [reflexivity|].
      symmetry. apply Z.compare_eq_iff. lia.
    + replace (2 * (N mod D) ?= D) with Gt; [reflexivity|].
      symmetry. apply Z.compare_gt_iff. lia.
  - rewrite Z.mod_small in Hs by lia.
    destruct (Z.eqb_spec (N mod D) 0) as [E0|E0].
    + rewrite E0 in Hs. subst s. reflexivity.
    + destruct (Z.eqb_spec (2 * (N mod D)) 0) as [E1|E1]; [lia|]. subst s.
      cbn [negb loc_of_shr_record].
      apply Z.compare_lt_iff in G. rewrite G. reflexivity.
Qed.

(** The number of binary digits of [m] is fixed by the powers of two
    around it. *)
Lemma digits2_unique m d :
  2 ^ (d - 1) <= Z.pos m < 2 ^ d -> Z.pos (digits2_pos m) = d.
Proof.
  intros [H1 H2]. pose proof (digits2_pos_bounds m) as [B1 B2].
  assert (Hd : 0 < d).
  { destruct (Z.lt_ge_cases 0 d) as [G|G]; [exact G|].
    destruct d as [|q|q]; cbn in H2; lia. }
  destruct (Z.lt_trichotomy (Z.pos (digits2_pos m)) d) as [G|[G|G]]; [|exact G|].
  - assert (2 ^ Z.pos (digits2_pos m) <= 2 ^ (d - 1)) by (apply Z.pow_le_mono_r; lia).
    lia.
  - assert (2 ^ d <= 2 ^ (Z.pos (digits2_pos m) - 1)) by (apply Z.pow_le_mono_r; lia).
    lia.
Qed.

Lemma fexp_normal e : -1074 <= e - 53 -> fexp prec emax e = e - 53.
Proof. intros H. unfold fexp, emin, prec, emax. lia. Qed.

Lemma shr_fexp_ok N D mx ex :
  0 <= N -> 0 < D -> mx = N / D -> 2 ^ 52 <= mx ->
  -1074 <= ex + (Zdigits2 mx - 53) ->
  exists mrs,
    shr_fexp prec emax mx ex (loc_frac N D) = (mrs, ex + (Zdigits2 mx - 53))
    /\ rec_ok N (2 ^ (Zdigits2 mx - 53) * D) mrs
    /\ 2 ^ 52 <= shr_m mrs < 2 ^ 53.
Proof.
  intros HN HD Hm Hx He.
  destruct mx as [|p|p]; try lia. cbn [Zdigits2] in *.
  pose proof (digits2_pos_bounds p) as [B1 B2].
  set (d := Z.pos (digits2_pos p)) in *.
  assert (Hd : 53 <= d).
  { destruct (Z.lt_ge_cases d 53) as [G|G]; [|exact G].
    assert (2 ^ d <= 2 ^ 52) by (apply Z.pow_le_mono_r; lia). lia. }
  unfold shr_fexp. cbn [Zdigits2]. fold d.
  rewrite fexp_normal by lia.
  replace (d + ex - 53 - ex) with (d - 53) by lia.
  assert (R : rec_ok N (2 ^ (d - 53) * D)
                (fst (shr (shr_record_of_loc (Z.pos p) (loc_frac N D)) ex (d - 53)))
              /\ snd (shr (shr_record_of_loc (Z.pos p) (loc_frac N D)) ex (d - 53))
                 = ex + (d - 53)).
  { destruct (d - 53) as [|q|q] eqn:E; try lia; cbn [shr fst snd].
    - split; [|lia]. rewrite Z.pow_0_r, Z.mul_1_l, Hm. now apply rec_of_loc.
    - split; [|reflexivity]. apply iter_pos_shr_ok; [exact HN|exact HD|].
      rewrite Hm. now apply rec_of_loc. }
  destruct R as [R1 R2].
  destruct (shr (shr_record_of_loc (Z.pos p) (loc_frac N D)) ex (d - 53)) as [mrs e'].
  cbn [fst snd] in R1, R2. subst e'. exists mrs. split; [reflexivity|].
  split; [exact R1|].
  destruct R1 as (R1 & _). rewrite R1.
  assert (P : 0 < 2 ^ (d - 53)) by (apply Z.pow_pos_nonneg; lia).
  rewrite (Z.mul_comm (2 ^ (d - 53)) D), <- Z.div_div by lia. rewrite <- Hm.
  assert (E1 : 2 ^ (d - 1) = 2 ^ 52 * 2 ^ (d - 53)).
  { rewrite <- Z.pow_add_r by lia. f_equal. lia. }
  assert (E2 : 2 ^ d = 2 ^ 53 * 2 ^ (d - 53)).
  { rewrite <- Z.pow_add_r by lia. f_equal. lia. }
  split.
  - apply Z.div_le_lower_bound; lia.
  - apply Z.div_lt_upper_bound; lia.
Qed.

Lemma round_nearest_even_bounds N D m :
  0 < D -> m = N / D ->
  m <= round_nearest_even m (loc_frac N D) <= m + 1
  /\ (N mod D = 0 -> round_nearest_even m (loc_frac N D) = m).
Proof.
  intros HD Hm. unfold loc_frac.
  destruct (Z.eqb_spec (N mod D) 0) as [E|E]; cbn [round_nearest_even].
  - split; [lia|reflexivity].
  - split; [|intros; contradiction].
    destruct (2 * (N mod D) ?= D); [destruct (Z.even m)| |]; lia.
Qed.

Lemma round_aux_normal N D mx ex :
  0 <= N -> 0 < D -> mx = N / D -> 2 ^ 52 <= mx ->
  -1074 <= ex + (Zdigits2 mx - 53) ->
  exists m1 m2,
    m1 = N / (2 ^ (Zdigits2 mx - 53) * D)
    /\ 2 ^ 52 <= m1 < 2 ^ 53
    /\ m1 <= m2 <= m1 + 1
    /\ (N mod (2 ^ (Zdigits2 mx - 53) * D) = 0 -> m2 = m1)
    /\ binary_round_aux prec emax false mx ex (loc_frac N D)
       = rounded m2 (ex + (Zdigits2 mx - 53)).
Proof.
  intros HN HD Hm Hx He.
  destruct (shr_fexp_ok N D mx ex HN HD Hm Hx He) as (mrs & E & R & B).
  set (n := Zdigits2 mx - 53) in *.
  assert (Hn : 0 <= n).
  { destruct mx as [|p|p]; try lia. subst n. cbn [Zdigits2].
    pose proof (digits2_pos_bounds p) as [B1 B2].
    destruct (Z.lt_ge_cases (Z.pos (digits2_pos p)) 53) as [G|G]; [|lia].
    assert (2 ^ Z.pos (digits2_pos p) <= 2 ^ 52) by (apply Z.pow_le_mono_r; lia). lia. }
  assert (HD' : 0 < 2 ^ n * D).
  { pose proof (Z.pow_pos_nonneg 2 n ltac:(lia) Hn). nia. }
  pose proof (loc_of_rec _ _ _ HD' R) as L.
  destruct R as (R1 & _).
  pose proof (round_nearest_even_bounds N (2 ^ n * D) (shr_m mrs) HD' R1) as [Rb Re].
  exists (shr_m mrs), (round_nearest_even (shr_m mrs) (loc_frac N (2 ^ n * D))).
  split; [exact R1|]. split; [exact B|]. split; [exact Rb|]. split; [exact Re|].
  unfold binary_round_aux. rewrite E, L.
  set (m2 := round_nearest_even (shr_m mrs) (loc_frac N (2 ^ n * D))) in *.
  unfold rounded. destruct (Z.ltb_spec m2 (2 ^ 53)) as [G|G].
  - destruct m2 as [|q|q] eqn:Em2; try lia.
    assert (Dq : Z.pos (digits2_pos q) = 53) by (apply digits2_unique; lia).
    unfold shr_fexp. cbn [Zdigits2]. rewrite Dq, fexp_normal by lia.
    replace (53 + (ex + n) - 53 - (ex + n)) with 0 by lia.
    cbn [shr shr_record_of_loc shr_m]. unfold fin, emax, prec.
    change (1024 - 53) with 971. cbn [Z.to_pos]. reflexivity.
  - assert (Em2 : m2 = 2 ^ 53) by lia. rewrite Em2.
    unfold shr_fexp. change (Zdigits2 (2 ^ 53)) with 54.
    rewrite fexp_normal by lia.
    replace (54 + (ex + n) - 53 - (ex + n)) with 1 by lia.
    cbn [shr shr_record_of_loc iter_pos]. 
    change (shr_1 {| shr_m := 2 ^ 53; shr_r := false; shr_s := false |})
      with {| shr_m := 2 ^ 52; shr_r := false; shr_s := false |}.
    cbn [shr_m]. unfold fin, emax, prec. change (1024 - 53) with 971.
    change (2 ^ 52) with (Z.pos (Z.to_pos (2 ^ 52))) at 1.
    cbv beta iota. reflexivity.
Qed.

Lemma pow2_pos k : 0 <= k -> 0 < 2 ^ k.
Proof. intros. apply Z.pow_pos_nonneg; lia. Qed.

Lemma pow2_add a b : 0 <= a -> 0 <= b -> 2 ^ (a + b) = 2 ^ a * 2 ^ b.
Proof. intros. apply Z.pow_add_r; lia. Qed.

Lemma rounded_value m2 e1 :
  2 ^ 52 <= m2 <= 2 ^ 53 -> -1074 <= e1 ->
  rounded m2 e1 = S754_infinity false
  \/ (normal (rounded m2 e1) = true
      /\ ulps (rounded m2 e1) = m2 * 2 ^ (e1 + 1074)).
Proof.
  intros Hm He. unfold rounded, fin.
  destruct (Z.ltb_spec m2 (2 ^ 53)) as [G|G].
  - destruct (Z.leb_spec e1 971) as [G'|G']; [right|left; reflexivity].
    destruct m2 as [|q|q]; try lia. cbn [Z.to_pos normal ulps].
    rewrite (digits2_unique q 53) by lia. split; [|reflexivity].
    rewrite Z.eqb_refl. cbn [andb].
    apply andb_true_iff. split; apply Z.leb_le; lia.
  - destruct (Z.leb_spec (e1 + 1) 971) as [G'|G']; [right|left; reflexivity].
    assert (E : m2 = 2 ^ 53) by lia. subst m2.
    change (Z.to_pos (2 ^ 52)) with 4503599627370496%positive.
    cbn [normal ulps]. split.
    + change (Z.pos (digits2_pos 4503599627370496)) with 53.
      rewrite Z.eqb_refl. cbn [andb].
      apply andb_true_iff. split; apply Z.leb_le; lia.
    + change (Z.pos 4503599627370496) with (2 ^ 52).
      replace (e1 + 1 + 1074) with (1 + (e1 + 1074)) by lia.
      rewrite pow2_add by lia. change (2 ^ 53) with (2 ^ 52 * 2 ^ 1). lia.
Qed.

Lemma rounded_overflow m2 e1 :
  2 ^ 52 <= m2 <= 2 ^ 53 -> -1074 <= e1 ->
  rounded m2 e1 = S754_infinity false ->
  2 ^ 53 * 2 ^ 2045 <= m2 * 2 ^ (e1 + 1074).
Proof.
  intros Hm He. unfold rounded, fin.
  destruct (Z.ltb_spec m2 (2 ^ 53)) as [G|G].
  - destruct (Z.leb_spec e1 971) as [G'|G']; [discriminate|]. intros _.
    assert (2 ^ 2046 <= 2 ^ (e1 + 1074)) by (apply Z.pow_le_mono_r; lia).
    change (2 ^ 2046) with (2 * 2 ^ 2045) in H.
    pose proof (pow2_pos 2045 ltac:(lia)).
    change (2 ^ 53) with (2 * 2 ^ 52). nia.
  - destruct (Z.leb_spec (e1 + 1) 971) as [G'|G']; [discriminate|]. intros _.
    assert (2 ^ 2045 <= 2 ^ (e1 + 1074)) by (apply Z.pow_le_mono_r; lia).
    pose proof (pow2_pos 2045 ltac:(lia)). nia.
Qed.

Section Rounding.
Variables N D mx ex A B : Z.
Hypothesis HN : 0 <= N.
Hypothesis HD : 0 < D.
Hypothesis Hm : mx = N / D.
Hypothesis Hx : 2 ^ 52 <= mx.
Hypothesis HB : 0 < B.
(** [A / B] is the exact value [N / D * 2 ^ ex], in units of [2 ^ -1074]. *)
Hypothesis HAB :
  A * (D * 2 ^ Z.max 0 (- (ex + 1074))) = N * 2 ^ Z.max 0 (ex + 1074) * B.
(** The exact value is in the range of the normal numbers. *)
Hypothesis Hnorm : 2 ^ 52 * B <= A.

Lemma round_core :
  exists n m1 m2,
    0 <= n /\ 0 <= ex + 1074 + n
    /\ 2 ^ 52 <= m1 < 2 ^ 53 /\ m1 <= m2 <= m1 + 1
    /\ m1 * (2 ^ n * D) <= N < (m1 + 1) * (2 ^ n * D)
    /\ (m2 = m1 \/ m1 * (2 ^ n * D) < N)
    /\ binary_round_aux prec emax false mx ex (loc_frac N D) = rounded m2 (ex + n).
Proof.
  destruct mx as [|p|p] eqn:Emx; try lia.
  pose proof (digits2_pos_bounds p) as [B1 B2].
  set (d := Z.pos (digits2_pos p)) in *.
  assert (Hd : 53 <= d).
  { destruct (Z.lt_ge_cases d 53) as [G|G]; [|exact G].
    assert (2 ^ d <= 2 ^ 52) by (apply Z.pow_le_mono_r; lia). lia. }
  set (a := Z.max 0 (ex + 1074)) in *. set (b := Z.max 0 (- (ex + 1074))) in *.
  assert (Hab : a - b = ex + 1074 /\ 0 <= a /\ 0 <= b) by (subst a b; lia).
  destruct Hab as (Hab & Ha & Hb).
  pose proof (pow2_pos a Ha) as Pa. pose proof (pow2_pos b Hb) as Pb.
  assert (He : 0 <= ex + 1074 + (d - 53)).
  { (* the value is at least 2 ^ 52 units, and below 2 ^ d * 2 ^ (ex + 1074) *)
    assert (HN' : N < 2 ^ d * D).
    { pose proof (Z.mod_pos_bound N D HD). pose proof (Z.div_mod N D ltac:(lia)). nia. }
    assert (G : 2 ^ 52 * 2 ^ b < 2 ^ d * 2 ^ a).
    { apply (Z.mul_lt_mono_pos_r (B * D)); [nia|].
      apply Z.le_lt_trans with (A * (D * 2 ^ b)); [nia|].
      rewrite HAB. nia. }
    rewrite <- !pow2_add in G by lia.
    apply Z.pow_lt_mono_r_iff in G; lia. }
  destruct (round_aux_normal N D (Z.pos p) ex HN HD Hm ltac:(lia)
              ltac:(cbn [Zdigits2]; fold d; lia))
    as (m1 & m2 & E1 & Bm & B2' & Ex & EF).
  cbn [Zdigits2] in *. fold d in E1, Ex, EF.
  exists (d - 53), m1, m2.
  assert (P : 0 < 2 ^ (d - 53) * D).
  { pose proof (pow2_pos (d - 53) ltac:(lia)). nia. }
  pose proof (Z.mod_pos_bound N _ P) as Hr.
  pose proof (Z.div_mod N (2 ^ (d - 53) * D) ltac:(lia)) as Hq.
  rewrite <- E1 in Hq.
  split; [lia|]. split; [lia|]. split; [exact Bm|]. split; [exact B2'|].
  split; [nia|]. split; [|exact EF].
  destruct (Z.eq_dec (N mod (2 ^ (d - 53) * D)) 0) as [E0|E0].
  - left. now apply Ex.
  - right. nia.
Qed.

Lemma round_cases :
  binary_round_aux prec emax false mx ex (loc_frac N D) = S754_infinity false
  \/ normal (binary_round_aux prec emax false mx ex (loc_frac N D)) = true.
Proof.
  destruct round_core as (n & m1 & m2 & Hn & He & Bm & B2 & _ & _ & ->).
  destruct (rounded_value m2 (ex + n) ltac:(lia) ltac:(lia)) as [E|[E _]]; auto.
Qed.

Lemma round_lower m k :
  normal (binary_round_aux prec emax false mx ex (loc_frac N D)) = true ->
  0 <= m <= 2 ^ 53 -> 0 <= k ->
  m * 2 ^ k * B <= A ->
  m * 2 ^ k <= ulps (binary_round_aux prec emax false mx ex (loc_frac N D)).
Proof.
  destruct round_core as (n & m1 & m2 & Hn & He & Bm & B2 & [Q1 Q2] & _ & ->).
  intros Hnm Hm' Hk HL.
  destruct (rounded_value m2 (ex + n) ltac:(lia) ltac:(lia)) as [E|[_ E]];
    [rewrite E in Hnm; discriminate|].
  rewrite E. clear E Hnm.
  set (a := Z.max 0 (ex + 1074)) in *. set (b := Z.max 0 (- (ex + 1074))) in *.
  assert (Hab : a - b = ex + 1074 /\ 0 <= a /\ 0 <= b) by (subst a b; lia).
  destruct Hab as (Hab & Ha & Hb).
  pose proof (pow2_pos a Ha) as Pa. pose proof (pow2_pos b Hb) as Pb.
  pose proof (pow2_pos n Hn) as Pn.
  pose proof (pow2_pos (ex + n + 1074) ltac:(lia)) as Pe.
  pose proof (pow2_pos k Hk) as Pk.
  apply Z.le_trans with (m1 * 2 ^ (ex + n + 1074)); [|nia].
  destruct (Z.le_gt_cases (ex + n + 1074) k) as [G|G].
  - set (j := k - (ex + n + 1074)).
    assert (Ek : 2 ^ k = 2 ^ j * 2 ^ (ex + n + 1074)).
    { rewrite <- pow2_add by (subst j; lia). f_equal. subst j. lia. }
    pose proof (pow2_pos j ltac:(subst j; lia)) as Pj.
    rewrite Ek, Z.mul_assoc. apply Z.mul_le_mono_nonneg_r; [lia|].
    (* m * 2 ^ j <= N / (2 ^ n * D) *)
    assert (X : m * 2 ^ j * (2 ^ n * D) <= N).
    { apply (Z.mul_le_mono_pos_r _ _ (2 ^ a * B)); [nia|].
      assert (Ex : 2 ^ (ex + n + 1074) * 2 ^ b = 2 ^ n * 2 ^ a).
      { rewrite <- !pow2_add by lia. f_equal. lia. }
      apply Z.le_trans with (A * (D * 2 ^ b)); [|rewrite HAB; nia].
      apply Z.le_trans with (m * 2 ^ k * B * (D * 2 ^ b)); [|nia].
      rewrite Ek.
      replace (m * 2 ^ j * (2 ^ n * D) * (2 ^ a * B))
        with (m * 2 ^ j * (2 ^ n * 2 ^ a) * B * D) by ring.
      rewrite <- Ex. apply Z.eq_le_incl. ring. }
    destruct (Z.le_gt_cases (m * 2 ^ j) m1) as [Y|Y]; [exact Y|]. nia.
  - assert (Ek : 2 ^ (ex + n + 1074) = 2 ^ (ex + n + 1074 - k - 1) * 2 * 2 ^ k).
    { rewrite <- (Z.pow_1_r 2) at 3. rewrite <- !pow2_add by lia. f_equal. lia. }
    pose proof (pow2_pos (ex + n + 1074 - k - 1) ltac:(lia)) as Pj.
    rewrite Ek. change (2 ^ 53) with (2 ^ 52 * 2) in Hm'. nia.
Qed.

Lemma round_upper m k :
  0 <= m < 2 ^ 53 -> 0 <= k <= 2045 ->
  A <= m * 2 ^ k * B ->
  normal (binary_round_aux prec emax false mx ex (loc_frac N D)) = true
  /\ ulps (binary_round_aux prec emax false mx ex (loc_frac N D)) <= m * 2 ^ k.
Proof.
  destruct round_core as (n & m1 & m2 & Hn & He & Bm & B2 & [Q1 Q2] & Q3 & ->).
  intros Hm' Hk HU.
  set (a := Z.max 0 (ex + 1074)) in *. set (b := Z.max 0 (- (ex + 1074))) in *.
  assert (Hab : a - b = ex + 1074 /\ 0 <= a /\ 0 <= b) by (subst a b; lia).
  destruct Hab as (Hab & Ha & Hb).
  pose proof (pow2_pos a Ha) as Pa. pose proof (pow2_pos b Hb) as Pb.
  pose proof (pow2_pos n Hn) as Pn.
  pose proof (pow2_pos (ex + n + 1074) ltac:(lia)) as Pe.
  pose proof (pow2_pos k ltac:(lia)) as Pk.
  assert (Ex : 2 ^ (ex + n + 1074) * 2 ^ b = 2 ^ n * 2 ^ a).
  { rewrite <- !pow2_add by lia. f_equal. lia. }
  (* N * 2 ^ a <= m * 2 ^ k * D * 2 ^ b *)
  assert (X : N * 2 ^ a <= m * 2 ^ k * (D * 2 ^ b)).
  { apply (Z.mul_le_mono_pos_r _ _ B); [lia|].
    rewrite <- HAB. nia. }
  assert (V : m2 * 2 ^ (ex + n + 1074) <= m * 2 ^ k).
  { destruct (Z.le_gt_cases (ex + n + 1074) k) as [G|G].
    - set (j := k - (ex + n + 1074)).
      assert (Ek : 2 ^ k = 2 ^ j * 2 ^ (ex + n + 1074)).
      { rewrite <- pow2_add by (subst j; lia). f_equal. subst j. lia. }
      pose proof (pow2_pos j ltac:(subst j; lia)) as Pj.
      rewrite Ek, Z.mul_assoc. apply Z.mul_le_mono_nonneg_r; [lia|].
      assert (Y : N <= m * 2 ^ j * (2 ^ n * D)).
      { apply (Z.mul_le_mono_pos_r _ _ (2 ^ a)); [lia|].
        apply Z.le_trans with (m * 2 ^ k * (D * 2 ^ b)); [exact X|].
        rewrite Ek.
        replace (m * (2 ^ j * 2 ^ (ex + n + 1074)) * (D * 2 ^ b))
          with (m * 2 ^ j * D * (2 ^ (ex + n + 1074) * 2 ^ b)) by ring.
        rewrite Ex. apply Z.eq_le_incl. ring. }
      destruct Q3 as [->|Q3]; nia.
    - exfalso.
      assert (Ek : 2 ^ (ex + n + 1074) = 2 ^ (ex + n + 1074 - k - 1) * 2 * 2 ^ k).
      { rewrite <- (Z.pow_1_r 2) at 3. rewrite <- !pow2_add by lia. f_equal. lia. }
      pose proof (pow2_pos (ex + n + 1074 - k - 1) ltac:(lia)) as Pj.
      (* 2 ^ 52 * 2 ^ n * D * 2 ^ a <= N * 2 ^ a <= m * 2 ^ k * D * 2 ^ b *)
      assert (Y : 2 ^ 52 * (2 ^ (ex + n + 1074) * 2 ^ b) * D <= m * 2 ^ k * (D * 2 ^ b)).
      { rewrite Ex. apply Z.le_trans with (N * 2 ^ a); [nia|exact X]. }
      rewrite Ek in Y. change (2 ^ 53) with (2 ^ 52 * 2) in Hm'.
      assert (Z' : 2 ^ 52 * (2 ^ (ex + n + 1074 - k - 1) * 2) <= m).
      { apply (Z.mul_le_mono_pos_r _ _ (2 ^ k * (D * 2 ^ b))); [nia|]. nia. }
      nia. }
  destruct (rounded_value m2 (ex + n) ltac:(lia) ltac:(lia)) as [E|[E1 E2]].
  - exfalso. apply rounded_overflow in E; [|lia|lia].
    replace (ex + n + 1074) with (ex + n + 1074) in V by lia.
    assert (2 ^ k <= 2 ^ 2045) by (apply Z.pow_le_mono_r; lia).
    pose proof (pow2_pos 2045 ltac:(lia)).
    replace (ex + n + 1074) with (ex + n + 1074) in E by lia.
    nia.
  - split; [exact E1|]. rewrite E2. exact V.
Qed.

End Rounding.

Lemma round_aux_rounds N D mx ex A B :
  0 <= N -> 0 < D -> mx = N / D -> 2 ^ 52 <= mx -> 0 < B ->
  A * (D * 2 ^ Z.max 0 (- (ex + 1074))) = N * 2 ^ Z.max 0 (ex + 1074) * B ->
  2 ^ 52 * B <= A ->
  rounds_to A B (binary_round_aux prec emax false mx ex (loc_frac N D)).
Proof.
  intros HN HD Hm Hx HB HAB Hn. split; [|split].
  - now apply (round_cases N D mx ex A B).
  - intros Hf m k. now apply (round_lower N D mx ex A B).
  - intros m k. now apply (round_upper N D mx ex A B).
Qed.

Lemma iter_xO p q : Z.pos (Pos.iter xO p q) = Z.pos p * 2 ^ Z.pos q.
Proof.
  induction q as [|q IH] using Pos.peano_ind.
  - cbn [Pos.iter]. rewrite Z.pow_1_r. lia.
  - rewrite Pos.iter_succ, Pos2Z.inj_succ, Z.pow_succ_r by lia.
    rewrite (Pos2Z.inj_xO (Pos.iter xO p q)), IH. lia.
Qed.

Lemma shl_align_value m e e' :
  e' <= e ->
  Z.pos (fst (shl_align m e e')) = Z.pos m * 2 ^ (e - e')
  /\ snd (shl_align m e e') = e'.
Proof.
  intros H. unfold shl_align. destruct (e' - e) as [|q|q] eqn:E; try lia; cbn [fst snd].
  - assert (e = e') by lia. subst e'. rewrite Z.sub_diag, Z.pow_0_r. lia.
  - rewrite iter_xO. replace (e - e') with (Z.pos q) by lia. split; reflexivity.
Qed.

Lemma loc_frac_1 N : loc_frac N 1 = loc_Exact.
Proof. unfold loc_frac. rewrite Z.mod_1_r. reflexivity. Qed.

(** [binary_round] of a value in the range of the normal numbers. *)
Lemma binary_round_rounds p e :
  -1074 <= e -> 2 ^ 52 <= Z.pos p * 2 ^ (e + 1074) ->
  rounds_to (Z.pos p * 2 ^ (e + 1074)) 1 (binary_round prec emax false p e).
Proof.
  intros He Hv. unfold binary_round.
  pose proof (digits2_pos_bounds p) as [B1 B2].
  set (d := Z.pos (digits2_pos p)) in *.
  pose proof (pow2_pos (e + 1074) ltac:(lia)) as Pe.
  assert (Hd : 0 <= d + e + 1074 - 53).
  { assert (G : 2 ^ 52 < 2 ^ d * 2 ^ (e + 1074)) by nia.
    rewrite <- pow2_add in G by lia. apply Z.pow_lt_mono_r_iff in G; lia. }
  rewrite fexp_normal by lia.
  destruct (Z.le_gt_cases (d + e - 53) e) as [G|G].
  - (* fewer than 53 digits: the mantissa is shifted to the left *)
    destruct (shl_align_value p e (d + e - 53) G) as [E1 E2].
    destruct (shl_align p e (d + e - 53)) as [mz ez]. cbn [fst snd] in E1, E2. subst ez.
    replace (e - (d + e - 53)) with (53 - d) in E1 by lia.
    pose proof (pow2_pos (53 - d) ltac:(lia)) as Ps.
    rewrite <- (loc_frac_1 (Z.pos mz)).
    apply round_aux_rounds; try lia.
    + now rewrite Z.div_1_r.
    + rewrite E1.
      assert (X : 2 ^ 52 = 2 ^ (d - 1) * 2 ^ (53 - d)).
      { rewrite <- pow2_add by lia. f_equal. lia. }
      rewrite X. nia.
    + rewrite !Z.max_l, !Z.max_r by lia. rewrite Z.pow_0_r, E1.
      replace (e + 1074) with ((53 - d) + (d + e - 53 + 1074)) by lia.
      rewrite pow2_add by lia. ring.
  - unfold shl_align. destruct (d + e - 53 - e) as [|q|q] eqn:E; try lia.
    rewrite <- (loc_frac_1 (Z.pos p)).
    apply round_aux_rounds; try lia.
    + now rewrite Z.div_1_r.
    + assert (2 ^ 52 <= 2 ^ (d - 1)) by (apply Z.pow_le_mono_r; lia). lia.
    + rewrite !Z.max_l, !Z.max_r by lia. rewrite Z.pow_0_r. ring.
Qed.

Lemma num_rounds h :
  0 < h -> rounds_to (h * 2 ^ 1074) 1 (num h).
Proof.
  intros Hh. destruct h as [|p|p]; try lia.
  unfold num, binary_normalize.
  pose proof (binary_round_rounds p 0 ltac:(lia)) as R.
  change (0 + 1074) with 1074 in R. apply R.
  pose proof (pow2_pos 1074 ltac:(lia)).
  assert (2 ^ 52 <= 2 ^ 1074) by (apply Z.pow_le_mono_r; lia). nia.
Qed.

Lemma normal_inv x :
  normal x = true ->
  exists m e, x = S754_finite false m e /\ 2 ^ 52 <= Z.pos m < 2 ^ 53
              /\ -1074 <= e <= 971.
Proof.
  destruct x as [s|s| |[|] m e]; try discriminate. cbn [normal].
  intros H. apply andb_true_iff in H as [H H3]. apply andb_true_iff in H as [H1 H2].
  apply Z.eqb_eq in H1. apply Z.leb_le in H2, H3.
  exists m, e. split; [reflexivity|]. split; [|lia].
  pose proof (digits2_pos_bounds m) as B. rewrite H1 in B. exact B.
Qed.

Lemma sub_rounds x y :
  normal x = true -> normal y = true -> 2 ^ 52 <= ulps x - ulps y ->
  rounds_to (ulps x - ulps y) 1 (num_sub x y).
Proof.
  intros Hx Hy Hv.
  destruct (normal_inv x Hx) as (mx & ex & -> & Bx & Ex).
  destruct (normal_inv y Hy) as (my & ey & -> & By & Ey).
  cbn [ulps] in *. unfold num_sub, SFsub. cbv zeta. cbn [cond_Zopp].
  set (ez := Z.min ex ey).
  destruct (shl_align_value mx ex ez ltac:(subst ez; lia)) as [E1 _].
  destruct (shl_align_value my ey ez ltac:(subst ez; lia)) as [E2 _].
  rewrite E1, E2.
  assert (Ev : Z.pos mx * 2 ^ (ex + 1074) - Z.pos my * 2 ^ (ey + 1074)
               = (Z.pos mx * 2 ^ (ex - ez) - Z.pos my * 2 ^ (ey - ez)) * 2 ^ (ez + 1074)).
  { replace (ex + 1074) with ((ex - ez) + (ez + 1074)) by lia.
    replace (ey + 1074) with ((ey - ez) + (ez + 1074)) by lia.
    rewrite (pow2_add (ex - ez)), (pow2_add (ey - ez)) by (subst ez; lia). ring. }
  rewrite Ev in *.
  pose proof (pow2_pos (ez + 1074) ltac:(subst ez; lia)) as Pz.
  destruct (Z.pos mx * 2 ^ (ex - ez) - Z.pos my * 2 ^ (ey - ez)) as [|q|q] eqn:Eq;
    try lia.
  cbn [binary_normalize]. apply binary_round_rounds; [subst ez; lia|exact Hv].
Qed.

Lemma sub_same x y :
  normal x = true -> normal y = true -> ulps x = ulps y ->
  num_sub x y = S754_zero false.
Proof.
  intros Hx Hy Hv.
  destruct (normal_inv x Hx) as (mx & ex & -> & Bx & Ex).
  destruct (normal_inv y Hy) as (my & ey & -> & By & Ey).
  cbn [ulps] in *. unfold num_sub, SFsub. cbv zeta. cbn [cond_Zopp].
  set (ez := Z.min ex ey).
  destruct (shl_align_value mx ex ez ltac:(subst ez; lia)) as [E1 _].
  destruct (shl_align_value my ey ez ltac:(subst ez; lia)) as [E2 _].
  rewrite E1, E2.
  assert (Ev : Z.pos mx * 2 ^ (ex + 1074) - Z.pos my * 2 ^ (ey + 1074)
               = (Z.pos mx * 2 ^ (ex - ez) - Z.pos my * 2 ^ (ey - ez)) * 2 ^ (ez + 1074)).
  { replace (ex + 1074) with ((ex - ez) + (ez + 1074)) by lia.
    replace (ey + 1074) with ((ey - ez) + (ez + 1074)) by lia.
    rewrite (pow2_add (ex - ez)), (pow2_add (ey - ez)) by (subst ez; lia). ring. }
  pose proof (pow2_pos (ez + 1074) ltac:(subst ez; lia)) as Pz.
  assert (E0 : Z.pos mx * 2 ^ (ex - ez) - Z.pos my * 2 ^ (ey - ez) = 0) by nia.
  rewrite E0. reflexivity.
Qed.

Lemma mul_rounds x y :
  normal x = true -> normal y = true ->
  2 ^ 52 * 2 ^ 1074 <= ulps x * ulps y ->
  rounds_to (ulps x * ulps y) (2 ^ 1074) (num_mul x y).
Proof.
  intros Hx Hy Hv.
  destruct (normal_inv x Hx) as (mx & ex & -> & Bx & Ex).
  destruct (normal_inv y Hy) as (my & ey & -> & By & Ey).
  cbn [ulps] in *. unfold num_mul, SFmul. cbn [xorb].
  rewrite <- (loc_frac_1 (Z.pos (mx * my))).
  pose proof (pow2_pos 1074 ltac:(lia)) as P.
  apply round_aux_rounds; try lia.
  - now rewrite Z.div_1_r.
  - set (a := Z.max 0 (ex + ey + 1074)). set (b := Z.max 0 (- (ex + ey + 1074))).
    assert (Hab : a - b = ex + ey + 1074 /\ 0 <= a /\ 0 <= b) by (subst a b; lia).
    destruct Hab as (Hab & Ha & Hb).
    rewrite Pos2Z.inj_mul.
    replace (Z.pos mx * 2 ^ (ex + 1074) * (Z.pos my * 2 ^ (ey + 1074)) * (1 * 2 ^ b))
      with (Z.pos mx * Z.pos my * (2 ^ (ex + 1074) * 2 ^ (ey + 1074) * 2 ^ b)) by ring.
    replace (Z.pos mx * Z.pos my * 2 ^ a * 2 ^ 1074)
      with (Z.pos mx * Z.pos my * (2 ^ a * 2 ^ 1074)) by ring.
    f_equal. rewrite <- !pow2_add by lia. f_equal. lia.
Qed.

Lemma new_location_frac N D :
  0 < D -> new_location D (N mod D) = loc_frac N D.
Proof.
  intros HD. pose proof (Z.mod_pos_bound N D HD) as Hr.
  unfold new_location, new_location_even, new_location_odd, loc_frac.
  destruct (Z.even D) eqn:Ev; [reflexivity|].
  destruct (Z.eqb_spec (N mod D) 0) as [E0|E0]; [reflexivity|]. f_equal.
  assert (Ho : Z.odd D = true) by (rewrite <- Z.negb_even, Ev; reflexivity).
  apply Z.odd_spec in Ho as [c Hc].
  destruct (Z.compare_spec (2 * (N mod D) + 1) D) as [G|G|G]; symmetry.
  - apply Z.compare_lt_iff. lia.
  - apply Z.compare_lt_iff. lia.
  - apply Z.compare_gt_iff. lia.
Qed.

Lemma div_rounds x y :
  normal x = true -> normal y = true ->
  2 ^ 53 * ulps y <= ulps x * 2 ^ 1074 ->
  rounds_to (ulps x * 2 ^ 1074) (ulps y) (num_div x y).
Proof.
  intros Hx Hy Hv.
  destruct (normal_inv x Hx) as (mx & ex & -> & Bx & Ex).
  destruct (normal_inv y Hy) as (my & ey & -> & By & Ey).
  cbn [ulps] in *. unfold num_div, SFdiv, SFdiv_core_binary. cbn [xorb Zdigits2].
  rewrite (digits2_unique mx 53), (digits2_unique my 53) by lia.
  pose proof (pow2_pos 1074 ltac:(lia)) as P.
  pose proof (pow2_pos (ex + 1074) ltac:(lia)) as Px.
  pose proof (pow2_pos (ey + 1074) ltac:(lia)) as Py.
  assert (He : -1021 <= ex - ey).
  { (* 2 ^ 53 * my * 2 ^ (ey + 1074) <= mx * 2 ^ (ex + 1074) * 2 ^ 1074 *)
    assert (G : 2 ^ 53 * 2 ^ (ey + 1074) * 2 ^ 52 < 2 ^ 53 * 2 ^ (ex + 1074) * 2 ^ 1074) by nia.
    rewrite <- !pow2_add in G by lia. apply Z.pow_lt_mono_r_iff in G; lia. }
  rewrite fexp_normal by lia.
  replace (Z.min (53 + ex - (53 + ey) - 53) (ex - ey)) with (ex - ey - 53) by lia.
  replace (ex - ey - (ex - ey - 53)) with 53 by lia.
  rewrite Z.shiftl_mul_pow2 by lia.
  set (N := Z.pos mx * 2 ^ 53).
  assert (Ed : Z.div_eucl N (Z.pos my) = (N / Z.pos my, N mod Z.pos my)).
  { unfold Z.div, Z.modulo. destruct (Z.div_eucl N (Z.pos my)). reflexivity. }
  rewrite Ed. rewrite new_location_frac by lia.
  apply round_aux_rounds; try lia.
  - subst N. apply Z.div_le_lower_bound; [lia|]. nia.
  - set (a := Z.max 0 (ex - ey - 53 + 1074)). set (b := Z.max 0 (- (ex - ey - 53 + 1074))).
    assert (Hab : a - b = ex - ey - 53 + 1074 /\ 0 <= a /\ 0 <= b) by (subst a b; lia).
    destruct Hab as (Hab & Ha & Hb). subst N.
    replace (Z.pos mx * 2 ^ (ex + 1074) * 2 ^ 1074 * (Z.pos my * 2 ^ b))
      with (Z.pos mx * Z.pos my * (2 ^ (ex + 1074) * 2 ^ 1074 * 2 ^ b)) by ring.
    replace (Z.pos mx * 2 ^ 53 * 2 ^ a * (Z.pos my * 2 ^ (ey + 1074)))
      with (Z.pos mx * Z.pos my * (2 ^ 53 * 2 ^ a * 2 ^ (ey + 1074))) by ring.
    f_equal. rewrite <- !pow2_add by lia. f_equal. lia.
Qed.

Lemma normal_plain x : normal x = true -> plain x = true.
Proof.
  intros H. destruct (normal_inv x H) as (m & e & -> & B & _).
  cbn [plain]. apply Pos.eqb_eq.
  assert (E : Z.pos (digits2_pos m) = 53) by (apply digits2_unique; lia).
  congruence.
Qed.

(** A normal number below one has floor zero. *)
Lemma floor_below_one x :
  normal x = true -> ulps x < 2 ^ 1074 -> Math_floor x = 0.
Proof.
  intros H Hu. destruct (normal_inv x H) as (m & e & -> & B & E).
  cbn [ulps Math_floor cond_Zopp] in *.
  destruct (Z.lt_ge_cases e 0) as [G|G].
  - rewrite Z.shiftl_div_pow2 by lia. apply Z.div_small. split; [lia|].
    assert (X : 2 ^ 1074 = 2 ^ (- e) * 2 ^ (e + 1074)).
    { rewrite <- pow2_add by lia. f_equal. lia. }
    pose proof (pow2_pos (e + 1074) ltac:(lia)). pose proof (pow2_pos (- e) ltac:(lia)).
    rewrite X in Hu. nia.
  - exfalso.
    assert (2 ^ 1074 <= 2 ^ (e + 1074)) by (apply Z.pow_le_mono_r; lia).
    pose proof (pow2_pos 1074 ltac:(lia)). nia.
Qed.

(** The exponent of a normal number, from the powers of two around it. *)
Lemma normal_exponent x k :
  normal x = true -> 2 ^ (k + 52) <= ulps x < 2 ^ (k + 53) -> 0 <= k ->
  exists m, x = S754_finite false m (k - 1074) /\ 2 ^ 52 <= Z.pos m < 2 ^ 53
            /\ ulps x = Z.pos m * 2 ^ k.
Proof.
  intros H [L U] Hk. destruct (normal_inv x H) as (m & e & -> & B & E).
  cbn [ulps] in *. exists m.
  pose proof (pow2_pos (e + 1074) ltac:(lia)) as P.
  assert (E1 : k < e + 1074 + 1).
  { assert (G : 2 ^ (k + 52) < 2 ^ 53 * 2 ^ (e + 1074)) by nia.
    rewrite <- pow2_add in G by lia. apply Z.pow_lt_mono_r_iff in G; lia. }
  assert (E2 : e + 1074 < k + 1).
  { assert (G : 2 ^ 52 * 2 ^ (e + 1074) < 2 ^ (k + 53)) by nia.
    rewrite <- pow2_add in G by lia. apply Z.pow_lt_mono_r_iff in G; lia. }
  assert (e = k - 1074) by lia. subst e.
  replace (k - 1074 + 1074) with k by lia. auto.
Qed.

(** An integer below [2 ^ 53] is a number as it is. *)
Lemma num_small h :
  0 < h < 2 ^ 53 -> normal (num h) = true /\ ulps (num h) = h * 2 ^ 1074.
Proof.
  intros Hh. destruct (num_rounds h ltac:(lia)) as (_ & Hl & Hu).
  destruct (Hu h 1074 ltac:(lia) ltac:(lia) ltac:(lia)) as [Hn U].
  specialize (Hl Hn h 1074 ltac:(lia) ltac:(lia) ltac:(lia)). split; [exact Hn|lia].
Qed.

(** One axis of a frame of at least 65536: the quotient is at least
    [127 / 128], the product at least [99.21875], and the percentage is
    below one. *)
Lemma axis_of_large H t :
  0 < t <= 512 -> normal H = true -> 2 ^ 1090 <= ulps H ->
  plain (num_sub (num 100) (num_mul (num_div (num_sub H (num t)) H) (num 100))) = true
  /\ Math_floor (num_sub (num 100) (num_mul (num_div (num_sub H (num t)) H) (num 100)))
     = 0.
Proof.
  intros Ht NH LH.
  set (ONE := 2 ^ 1074).
  assert (PS : 0 < ONE) by (apply pow2_pos; lia).
  destruct (normal_inv _ NH) as (mh & eh & EH & Bh & Eh).
  assert (UH : ulps H = Z.pos mh * 2 ^ (eh + 1074)) by (rewrite EH; reflexivity).
  set (kh := eh + 1074) in *.
  assert (Hkh : 1038 <= kh <= 2045).
  { split; [|subst kh; lia].
    assert (G : 2 ^ 1090 < 2 ^ 53 * 2 ^ kh).
    { pose proof (pow2_pos kh ltac:(subst kh; lia)). nia. }
    rewrite <- pow2_add in G by (subst kh; lia).
    apply Z.pow_lt_mono_r_iff in G; lia. }
  pose proof (pow2_pos kh ltac:(lia)) as Pk.
  assert (Ek : 2 ^ kh = 2 ^ (kh - 1038) * 2 ^ 1038).
  { rewrite <- pow2_add by lia. f_equal. lia. }
  pose proof (pow2_pos (kh - 1038) ltac:(lia)) as Pj.
  (* the threshold and the constant 100 *)
  destruct (num_small t ltac:(lia)) as [NT UT]. fold ONE in UT.
  destruct (num_small 100 ltac:(lia)) as [NC UC]. fold ONE in UC.
  set (T := num t) in *. set (C := num 100) in *.
  (* a = H - T *)
  assert (Ea : 2 ^ 45 * 2 ^ kh >= t * ONE).
  { rewrite Ek. unfold ONE. change (2 ^ 1074) with (2 ^ 36 * 2 ^ 1038).
    pose proof (pow2_pos 1038 ltac:(lia)). nia. }
  destruct (sub_rounds H T NH NT) as (_ & Hl & Hu).
  { rewrite UT. apply Z.le_trans with (2 ^ 1090 - 512 * ONE); [|lia].
    unfold ONE. cbv. discriminate. }
  destruct (Hu (Z.pos mh) kh ltac:(lia) ltac:(lia)) as [Na Ua]; [lia|].
  specialize (Hl Na (Z.pos mh - 2 ^ 45) kh ltac:(lia) ltac:(lia)).
  assert (La : (Z.pos mh - 2 ^ 45) * 2 ^ kh <= ulps (num_sub H T)).
  { apply Hl. rewrite UH, UT. nia. }
  clear Hl Hu. set (a := num_sub H T) in *.
  (* x = a / H *)
  destruct (div_rounds a H Na NH) as (_ & Hl & Hu).
  { apply Z.le_trans with (2 ^ 53 * (2 ^ 53 * 2 ^ kh)); [rewrite UH; nia|].
    apply Z.le_trans with ((Z.pos mh - 2 ^ 45) * 2 ^ kh * ONE); [|nia].
    unfold ONE. change (2 ^ 1074) with (2 ^ 55 * 2 ^ 1019).
    pose proof (pow2_pos 1019 ltac:(lia)). nia. }
  fold ONE in Hl, Hu.
  destruct (Hu 1 1074 ltac:(lia) ltac:(lia)) as [Nx Ux]; [fold ONE; nia|].
  fold ONE in Ux. rewrite Z.mul_1_l in Ux.
  specialize (Hl Nx 127 1067 ltac:(lia) ltac:(lia)).
  assert (Lx : 127 * 2 ^ 1067 <= ulps (num_div a H)).
  { apply Hl. rewrite UH. unfold ONE. change (2 ^ 1074) with (128 * 2 ^ 1067).
    pose proof (pow2_pos 1067 ltac:(lia)).
    apply Z.le_trans with ((Z.pos mh - 2 ^ 45) * 2 ^ kh * (128 * 2 ^ 1067)); [|nia].
    replace (127 * 2 ^ 1067 * (Z.pos mh * 2 ^ kh))
      with (127 * Z.pos mh * (2 ^ kh * 2 ^ 1067)) by ring.
    replace ((Z.pos mh - 2 ^ 45) * 2 ^ kh * (128 * 2 ^ 1067))
      with (128 * (Z.pos mh - 2 ^ 45) * (2 ^ kh * 2 ^ 1067)) by ring.
    apply Z.mul_le_mono_nonneg_r; [nia|lia]. }
  clear Hl Hu. set (x := num_div a H) in *.
  (* y = x * 100 *)
  destruct (mul_rounds x C Nx NC) as (_ & Hl & Hu).
  { rewrite UC. fold ONE.
    apply Z.le_trans with (127 * 2 ^ 1067 * (100 * ONE)); [|nia].
    assert (2 ^ 52 <= 127 * 2 ^ 1067 * 100) by (cbv; discriminate). nia. }
  fold ONE in Hl, Hu.
  destruct (Hu 25 1076 ltac:(lia) ltac:(lia)) as [Ny Uy].
  { rewrite UC. change (2 ^ 1076) with (4 * 2 ^ 1074). fold ONE. nia. }
  change (25 * 2 ^ 1076) with (100 * 2 ^ 1074) in Uy. fold ONE in Uy.
  specialize (Hl Ny 3175 1069 ltac:(lia) ltac:(lia)).
  assert (Ly : 3175 * 2 ^ 1069 <= ulps (num_mul x C)).
  { apply Hl. rewrite UC.
    apply Z.le_trans with (127 * 2 ^ 1067 * (100 * ONE)); [|nia].
    apply Z.eq_le_incl. change (2 ^ 1069) with (4 * 2 ^ 1067). ring. }
  clear Hl Hu. set (y := num_mul x C) in *.
  (* z = 100 - y *)
  destruct (normal_exponent y 1028 Ny) as (my & Ey & By & Uy');
    [split; [apply Z.le_trans with (3175 * 2 ^ 1069); [cbv; discriminate|exact Ly]
            |apply Z.le_lt_trans with (100 * ONE); [exact Uy|unfold ONE; cbv; reflexivity]]
    |lia|].
  destruct (Z.eq_dec (ulps y) (100 * ONE)) as [E|E].
  - rewrite (sub_same C y NC Ny) by lia. split; reflexivity.
  - assert (E' : 100 * ONE = 25 * 2 ^ 48 * 2 ^ 1028) by (unfold ONE; cbv; reflexivity).
    pose proof (pow2_pos 1028 ltac:(lia)) as P28.
    destruct (sub_rounds C y NC Ny) as (_ & _ & Hu).
    { rewrite UC. fold ONE. rewrite Uy', E' in *.
      assert (Z.pos my < 25 * 2 ^ 48) by nia.
      assert (2 ^ 52 <= 2 ^ 1028) by (apply Z.pow_le_mono_r; lia). nia. }
    destruct (Hu 25 1069 ltac:(lia) ltac:(lia)) as [Nz Uz].
    { rewrite UC. fold ONE.
      assert (100 * ONE = 3200 * 2 ^ 1069) by (unfold ONE; cbv; reflexivity). lia. }
    split; [now apply normal_plain|].
    apply floor_below_one; [exact Nz|].
    apply Z.le_lt_trans with (25 * 2 ^ 1069); [exact Uz|]. cbv. reflexivity.
Qed.

Lemma num_large d :
  65536 < d ->
  num d = S754_infinity false
  \/ (normal (num d) = true /\ 2 ^ 1090 <= ulps (num d)).
Proof.
  intros Hd. destruct (num_rounds d ltac:(lia)) as ([E|NH] & Hl & _); [now left|right].
  split; [exact NH|].
  rewrite <- (Z.mul_1_l (2 ^ 1090)). apply (Hl NH); lia.
Qed.

Lemma num_finite d :
  0 < d <= MAX_VALUE -> normal (num d) = true.
Proof.
  intros Hd. destruct (num_rounds d ltac:(lia)) as (_ & _ & Hu).
  apply (Hu (2 ^ 53 - 1) 2045); try lia.
  unfold MAX_VALUE in Hd. change (2 ^ 2045) with (2 ^ 971 * 2 ^ 1074).
  pose proof (pow2_pos 971 ltac:(lia)). pose proof (pow2_pos 1074 ltac:(lia)). nia.
Qed.

(** One axis of a frame larger than 65536, for a dimension that a number
    can hold. *)
Lemma axis_large t d :
  0 < t <= 512 -> 65536 < d <= MAX_VALUE ->
  plain (reducePercentage t (Some d)) = true
  /\ Math_floor (reducePercentage t (Some d)) = 0.
Proof.
  intros Ht Hd. unfold reducePercentage, js_gt, field_num.
  replace (d >? t) with true by (symmetry; apply Z.gtb_lt; lia).
  destruct (num_large d ltac:(lia)) as [E|[NH LH]].
  - pose proof (num_finite d ltac:(lia)) as N. rewrite E in N. discriminate.
  - now apply axis_of_large.
Qed.


(** ** The preview scale, in binary64 and in exact arithmetic *)

Lemma prim_num_spec z :
  0 <= z < 2 ^ 62 -> FloatOps.Prim2SF (prim_num z) = num z.
Proof.
  intros Hz. unfold prim_num, num.
  rewrite FloatAxioms.of_uint63_spec, Uint63.of_Z_spec.
  rewrite Z.mod_small; [reflexivity|].
  change Uint63.wB with (2 ^ 63). lia.
Qed.

(** The primitive computation of an axis is the one of the trigger. *)
Lemma prim_axis_spec t d :
  0 <= t < 2 ^ 62 -> 0 <= d < 2 ^ 62 ->
  FloatOps.Prim2SF (prim_axis t d) = reducePercentage t (Some d).
Proof.
  intros Ht Hd. unfold prim_axis, reducePercentage, js_gt, field_num.
  destruct (d >? t).
  - rewrite FloatAxioms.sub_spec, FloatAxioms.mul_spec, FloatAxioms.div_spec,
      FloatAxioms.sub_spec.
    rewrite !prim_num_spec by lia. reflexivity.
  - apply prim_num_spec. lia.
Qed.

(** Both axes, evaluated at every frame size up to [MAX_DIMENSION]. *)
Lemma axes_checked :
  all_from (axis_ok 480) (Z.to_nat MAX_DIMENSION) 1 = true
  /\ all_from (axis_ok 425) (Z.to_nat MAX_DIMENSION) 1 = true.
Proof. split; vm_cast_no_check (eq_refl true). Qed.

Lemma Qfloor_axisQ t d :
  0 < t < d -> Qfloor (axisQ t d) = (100 * t) / d.
Proof.
  intros H. unfold axisQ.
  replace (d >? t) with true by (symmetry; apply Z.gtb_lt; lia).
  assert (E : (100 - (inject_Z d - inject_Z t) / inject_Z d * 100
               == (100 * t) # (Z.to_pos d))%Q).
  { assert (Hd : ~ (inject_Z d == 0)%Q).
    { unfold Qeq, inject_Z. cbn. lia. }
    transitivity (inject_Z (100 * t) / inject_Z d)%Q.
    - rewrite inject_Z_mult. change (inject_Z 100) with 100%Q. field. exact Hd.
    - destruct d as [|p|p]; try lia. unfold Qeq, Qdiv, Qmult, Qinv, inject_Z.
      cbn [Qnum Qden Z.to_pos]. lia. }
  rewrite E. unfold Qfloor. rewrite Z2Pos.id by lia. reflexivity.
Qed.

Lemma Qfloor_axisQ_low t d : d <= t -> Qfloor (axisQ t d) = 0.
Proof.
  intros H. unfold axisQ.
  replace (d >? t) with false; [reflexivity|].
  symmetry. rewrite Z.gtb_ltb. apply Z.ltb_ge. exact H.
Qed.

(** One axis, for every integer that a number can hold: the binary64
    value is plain and has the floor of the exact value. Up to
    [MAX_DIMENSION] by evaluation, above it by the bounds of the rounded
    operations. *)
Lemma axis_exact t d :
  t = 480 \/ t = 425 -> d <= MAX_VALUE ->
  plain (reducePercentage t (Some d)) = true
  /\ Math_floor (reducePercentage t (Some d)) = Qfloor (axisQ t d).
Proof.
  intros Ht Hd.
  destruct (Z.le_gt_cases d 0) as [G0|G0].
  - unfold reducePercentage, js_gt.
    replace (d >? t) with false
      by (symmetry; rewrite Z.gtb_ltb; apply Z.ltb_ge; lia).
    rewrite Qfloor_axisQ_low by lia. split; reflexivity.
  - destruct (Z.le_gt_cases d MAX_DIMENSION) as [G|G].
    + destruct axes_checked as [A1 A2].
      assert (B : axis_ok t d = true).
      { destruct Ht as [->| ->];
          [apply (all_from_spec _ _ _ A1)|apply (all_from_spec _ _ _ A2)];
          rewrite Z2Nat.id by (unfold MAX_DIMENSION; lia); lia. }
      unfold axis_ok in B.
      rewrite prim_axis_spec in B by (unfold MAX_DIMENSION in *; lia).
      apply andb_true_iff in B as [P F]. apply Z.eqb_eq in F. split; assumption.
    + unfold MAX_DIMENSION in G.
      destruct (axis_large t d ltac:(lia) ltac:(lia)) as [P F].
      split; [exact P|]. rewrite F, Qfloor_axisQ by lia.
      symmetry. apply Z.div_small. lia.
Qed.

Lemma reduce_exact h w :
  h <= MAX_VALUE -> w <= MAX_VALUE ->
  reduce_of {| width := Some w; height := Some h |} = exact_scale h w.
Proof.
  intros Hh Hw.
  destruct (axis_exact 480 h (or_introl eq_refl) Hh) as [P1 F1].
  destruct (axis_exact 425 w (or_intror eq_refl) Hw) as [P2 F2].
  unfold reduce_of, exact_scale. cbn [width height].
  rewrite floor_min by assumption. rewrite Qfloor_min. congruence.
Qed.

Lemma MAX_DIMENSION_le : MAX_DIMENSION <= MAX_VALUE.
Proof. unfold MAX_DIMENSION, MAX_VALUE. cbv. discriminate. Qed.



(** Above [MAX_VALUE] an integer is no number any more: it reads as
    [Infinity], the formula gives [NaN], the comparison with [NaN] is false
    and the other axis alone decides. *)
Lemma beyond_MAX_VALUE :
  num (2 ^ 1024) = S754_infinity false
  /\ reducePercentage 480 (Some (2 ^ 1024)) = S754_nan
  /\ reduce_of {| width := Some 850; height := Some (2 ^ 1024) |} = 50.
Proof. vm_compute. repeat split; reflexivity. Qed.


(** ** [getCodec] *)

Lemma getCodec_each_settled l v a :
  snd (fold_left getCodec_each l (v, Resolved a)) = Resolved a.
Proof.
  revert v; induction l as [|s l IH]; intros v; cbn [fold_left]; [reflexivity|].
  unfold getCodec_each at 2. destruct (str_eqb _ _); cbn [resolve]; apply IH.
Qed.

(** The promise is resolved with the codec of the first video stream; the
    later calls of [resolve] change nothing. *)
Lemma getCodec_first_video pre s post :
  forallb (fun x => negb (is_video_stream x)) pre = true ->
  is_video_stream s = true ->
  getCodec_settle (inr {| streams := pre ++ s :: post |})
  = Resolved (Some (Stream.codec_name s)).
Proof.
  intros Hpre Hs. unfold getCodec_settle. cbn [streams].
  generalize (@None str) as v.
  induction pre as [|x pre IH]; intros v; cbn [app fold_left].
  - unfold getCodec_each at 2. unfold is_video_stream in Hs. rewrite Hs.
    cbn [resolve]. apply getCodec_each_settled.
  - cbn [forallb] in Hpre. apply andb_true_iff in Hpre as [Hx Hpre].
    unfold getCodec_each at 2. unfold is_video_stream in Hx.
    apply negb_true_iff in Hx. rewrite Hx. now apply IH.
Qed.

(** Without a video stream [resolve] is never called. *)
Lemma getCodec_no_video ss :
  forallb (fun x => negb (is_video_stream x)) ss = true ->
  getCodec_settle (inr {| streams := ss |}) = Pending.
Proof.
  intros H. unfold getCodec_settle. cbn [streams].
  generalize (@None str) as v.
  induction ss as [|x ss IH]; intros v; cbn [fold_left]; [reflexivity|].
  cbn [forallb] in H. apply andb_true_iff in H as [Hx H].
  unfold getCodec_each at 2. unfold is_video_stream in Hx.
  apply negb_true_iff in Hx. rewrite Hx. now apply IH.
Qed.

(** * The properties of the specification *)

(** ** C1: a derived key is recognised as derived *)

(** C1. The code departs from the claim on keys without an extension: for
    the key [videos/clip] the Transcode target is the key itself, and
    neither it nor the Preview and Poster targets pass the guard that
    stops the trigger on its own output. *)
Theorem C1_extensionless_target_not_recognised :
  derivedKey (lit "videos/clip") Transcode = lit "videos/clip"
  /\ isAlreadyDerived (derivedKey (lit "videos/clip") Transcode) (lit "video/mp4") = false
  /\ isAlreadyDerived (derivedKey (lit "videos/clip") Preview) (lit "video/mp4") = false
  /\ isAlreadyDerived (derivedKey (lit "videos/clip") Poster) (lit "image/jpeg") = false.
Proof. vm_compute. repeat split; reflexivity. Qed.

(** The older variant appends the suffix to the name without its
    extension, so its target for the same key does end with the suffix. *)
Example legacy_target_of_extensionless_key :
  map (fun r => match r with Upload _ _ o => Some (destination o) | _ => None end)
      (filter is_upload (requests (snd (Legacy.handle (env_ok "mpeg4" 850 960) clip_noext))))
  = [Some (lit "videos/clip_output.mp4")].
Proof. vm_compute. reflexivity. Qed.

(** With an extension the four targets are all recognised. *)
Example targets_of_clip_mov_recognised :
  isAlreadyDerived (derivedKey (lit "pics/cat.png") Thumbnail) (lit "image/png") = true
  /\ isAlreadyDerived (derivedKey (lit "videos/clip.mov") Transcode) (lit "video/mp4") = true
  /\ isAlreadyDerived (derivedKey (lit "videos/clip.mov") Preview) (lit "video/mp4") = true
  /\ isAlreadyDerived (derivedKey (lit "videos/clip.mov") Poster) (lit "image/jpeg") = true.
Proof. vm_compute. repeat split; reflexivity. Qed.

(** With an extension in the key every derived key passes the guard of
    its content type; the thumbnail key passes it for every key. *)
Theorem derived_keys_recognised key :
  (forall ct, is_image ct = true ->
              isAlreadyDerived (derivedKey key Thumbnail) ct = true)
  /\ (forall ct, has_ext (Path.basename key) = true -> is_video ct = true ->
                 isAlreadyDerived (derivedKey key Transcode) ct = true
                 /\ isAlreadyDerived (derivedKey key Preview) ct = true)
  /\ (forall ct, has_ext key = true -> is_image ct = true ->
                 isAlreadyDerived (derivedKey key Poster) ct = true).
Proof.
  pose proof (basename_no_slash key) as Hb.
  split; [|split].
  - intros ct Hi. unfold isAlreadyDerived, derivedKey, thumbFilePath_of. rewrite Hi.
    rewrite basename_normalize_join.
    + rewrite toLowerCase_app.
      change (toLowerCase THUMB_PREFIX) with THUMB_PREFIX.
      now rewrite startsWith_app.
    + apply dirname_nonempty.
    + split; [rewrite forallb_app, Hb; reflexivity|].
      rewrite length_app. cbn. lia.
  - intros ct Hx Hv. pose proof (video_not_image ct Hv) as Hi.
    unfold isAlreadyDerived, derivedKey, mp4FilePath_of, mp4FilePathThumb_of.
    rewrite Hi, Hv.
    destruct (replace_ext_prefix _ (lit "_output.mp4") Hx) as (pre & suf & E & ->).
    destruct (replace_ext_prefix _ (lit "_thumb_output.mp4") Hx) as (pre' & suf' & E' & ->).
    assert (Hp : forallb Path.not_slash pre = true).
    { rewrite E, forallb_app in Hb. now apply andb_true_iff in Hb as [? _]. }
    assert (Hp' : forallb Path.not_slash pre' = true).
    { rewrite E', forallb_app in Hb. now apply andb_true_iff in Hb as [? _]. }
    rewrite !basename_normalize_join
      by (apply dirname_nonempty || (apply suffixed_plain; [assumption|reflexivity|cbn; lia])).
    rewrite !toLowerCase_app. split.
    + change (toLowerCase (lit "_output.mp4")) with (lit "_output.mp4").
      apply endsWith_app.
    + change (toLowerCase (lit "_thumb_output.mp4"))
        with (lit "_thumb" ++ lit "_output.mp4").
      rewrite app_assoc. apply endsWith_app.
  - intros ct Hx Hi. unfold isAlreadyDerived, derivedKey, remotePath_of. rewrite Hi.
    destruct (replace_ext_prefix _ (lit "_poster.jpg") Hx) as (pre & suf & _ & ->).
    rewrite basename_after_prefix by (discriminate || reflexivity).
    rewrite toLowerCase_app.
    change (toLowerCase (lit "_poster.jpg")) with (lit "_poster.jpg").
    rewrite endsWith_app. apply orb_true_r.
Qed.

(** ** C2: the scratch copy of the input *)

(** C2, counterexample. ffprobe fails on the downloaded video: the
    invocation is rejected and the scratch copy is still on disk. *)
Lemma C2_scratch_left_when_probe_fails :
  In (Download (bucket clip_mov) (name clip_mov) (tempLocalFile_of clip_mov), Ok)
     (trace (snd (handle env_probe_error clip_mov)))
  /\ fst (handle env_probe_error clip_mov) = Throw "ffprobe exited with code 1"%string
  /\ mem (tempLocalFile_of clip_mov) (files (snd (handle env_probe_error clip_mov))) = true.
Proof. vm_compute. repeat split; auto. Qed.

(** C2, as amended. An invocation that returns normally after uploading at
    least one artifact has removed the scratch copy of the inbound
    object. *)
Theorem C2_scratch_removed_after_uploads env object w :
  handle env object = (Done tt, w) ->
  (0 < uploads w)%nat ->
  mem (tempLocalFile_of object) (files w) = false.
Proof.
  intros H Hu.
  exec_in H; repeat step H; try discriminate H; injection H as <-.
  all: try (revert Hu; counts; lia).
  all: cbv [files]; apply mem_remove.
Qed.

(** C2, an instance: the complete run on [videos/clip.mov]. *)
Lemma C2_scratch_removed_witness :
  handle (env_ok "mpeg4" 850 960) clip_mov
  = (Done tt, snd (handle (env_ok "mpeg4" 850 960) clip_mov))
  /\ (0 < uploads (snd (handle (env_ok "mpeg4" 850 960) clip_mov)))%nat
  /\ mem (tempLocalFile_of clip_mov)
       (files (snd (handle (env_ok "mpeg4" 850 960) clip_mov))) = false.
Proof.
  assert (H1 : handle (env_ok "mpeg4" 850 960) clip_mov
               = (Done tt, snd (handle (env_ok "mpeg4" 850 960) clip_mov)))
    by (vm_compute; reflexivity).
  assert (H2 : (0 < uploads (snd (handle (env_ok "mpeg4" 850 960) clip_mov)))%nat)
    by (vm_compute; lia).
  split; [exact H1|]. split; [exact H2|].
  exact (C2_scratch_removed_after_uploads _ _ _ H1 H2).
Defined.

(** ** C3: the preview scale *)

(** C3. On each axis the percentage is [0] when the dimension does not
    exceed its threshold; for every pair of integer dimensions that a
    number can hold (up to [MAX_VALUE]) the binary64 computation of the
    trigger gives the floor of the smaller of the two exact values
    [100 - ((d - t) / d) * 100]; the call that follows the probe of the
    dimensions is the conversion of the Preview (mp4, libx264, the size
    being that percentage followed by [%]) exactly when the floored value
    is positive, and a conversion that succeeds is followed by the upload
    of the Preview; when the floored value is not positive no transform
    and no upload follows the probe; 960 by 425 gives 0 and no Preview,
    960 by 850 gives 50 and the conversion at [50%]. *)
Theorem C3_preview_scale :
  (forall t d, d <= t -> reducePercentage t (Some d) = num 0)
  /\ (forall h w,
        h <= MAX_VALUE -> w <= MAX_VALUE ->
        reduce_of {| width := Some w; height := Some h |} = exact_scale h w)
  /\ (forall env object o wd i f s0 rest,
        handle env object = (o, wd) ->
        (3 <= i)%nat ->
        nth_error (trace wd) i = Some (Ffprobe f, Probed {| streams := s0 :: rest |}) ->
        (reduce_of (dimensions_of s0) > 0 <->
         exists resp,
           nth_error (trace wd) (S i)
           = Some (Ffmpeg
                     {| input := Path.join [os_tmpdir; name object];
                        format := Some (lit "mp4");
                        videoCodec := Some (lit "libx264");
                        size := Some (string_of_Z (reduce_of (dimensions_of s0))
                                      ++ lit "%");
                        seek := None;
                        frames := None;
                        output :=
                          Path.join [os_tmpdir; mp4FilePathThumb_of (name object)] |},
                   resp))
        /\ (forall c,
              nth_error (trace wd) (S i) = Some (Ffmpeg c, Ok) ->
              exists resp,
                nth_error (trace wd) (S (S i))
                = Some (Upload (bucket object)
                          (Path.join [os_tmpdir; mp4FilePathThumb_of (name object)])
                          {| destination := mp4FilePathThumb_of (name object);
                             uploadType := Some (lit "media");
                             resumable := Some false;
                             public := Some true;
                             metadata :=
                               [("gzip"%string, JBool true);
                                ("cacheControl"%string,
                                 JStr (lit "public, max-age=31536000"))] |},
                        resp))
        /\ (reduce_of (dimensions_of s0) <= 0 ->
            forall j r resp,
              (i < j)%nat -> nth_error (trace wd) j = Some (r, resp) ->
              is_transform r || is_upload r = false))
  /\ (reduce_of {| width := Some 425; height := Some 960 |} = 0
      /\ forall env object o wd i f s0 rest,
           handle env object = (o, wd) ->
           (3 <= i)%nat ->
           nth_error (trace wd) i
           = Some (Ffprobe f, Probed {| streams := s0 :: rest |}) ->
           Stream.width s0 = Some 425 -> Stream.height s0 = Some 960 ->
           forall j r resp,
             (i < j)%nat -> nth_error (trace wd) j = Some (r, resp) ->
             is_transform r || is_upload r = false)
  /\ (reduce_of {| width := Some 850; height := Some 960 |} = 50
      /\ forall env object o wd i f s0 rest,
           handle env object = (o, wd) ->
           (3 <= i)%nat ->
           nth_error (trace wd) i
           = Some (Ffprobe f, Probed {| streams := s0 :: rest |}) ->
           Stream.width s0 = Some 850 -> Stream.height s0 = Some 960 ->
           exists resp,
             nth_error (trace wd) (S i)
             = Some (Ffmpeg
                       {| input := Path.join [os_tmpdir; name object];
                          format := Some (lit "mp4");
                          videoCodec := Some (lit "libx264");
                          size := Some (lit "50%");
                          seek := None;
                          frames := None;
                          output :=
                            Path.join [os_tmpdir; mp4FilePathThumb_of (name object)] |},
                     resp)).
Proof.
  assert (E0 : reduce_of {| width := Some 425; height := Some 960 |} = 0)
    by (vm_compute; reflexivity).
  assert (E50 : reduce_of {| width := Some 850; height := Some 960 |} = 50)
    by (vm_compute; reflexivity).
  assert (G : forall env object o wd i f s0 rest,
        handle env object = (o, wd) ->
        (3 <= i)%nat ->
        nth_error (trace wd) i = Some (Ffprobe f, Probed {| streams := s0 :: rest |}) ->
        (reduce_of (dimensions_of s0) > 0 <->
         exists resp,
           nth_error (trace wd) (S i)
           = Some (Ffmpeg
                     {| input := Path.join [os_tmpdir; name object];
                        format := Some (lit "mp4");
                        videoCodec := Some (lit "libx264");
                        size := Some (string_of_Z (reduce_of (dimensions_of s0))
                                      ++ lit "%");
                        seek := None;
                        frames := None;
                        output :=
                          Path.join [os_tmpdir; mp4FilePathThumb_of (name object)] |},
                   resp))
        /\ (forall c,
              nth_error (trace wd) (S i) = Some (Ffmpeg c, Ok) ->
              exists resp,
                nth_error (trace wd) (S (S i))
                = Some (Upload (bucket object)
                          (Path.join [os_tmpdir; mp4FilePathThumb_of (name object)])
                          {| destination := mp4FilePathThumb_of (name object);
                             uploadType := Some (lit "media");
                             resumable := Some false;
                             public := Some true;
                             metadata :=
                               [("gzip"%string, JBool true);
                                ("cacheControl"%string,
                                 JStr (lit "public, max-age=31536000"))] |},
                        resp))
        /\ (reduce_of (dimensions_of s0) <= 0 ->
            forall j r resp,
              (i < j)%nat -> nth_error (trace wd) j = Some (r, resp) ->
              is_transform r || is_upload r = false)).
  { intros env object o wd i f s0 rest H Hi Hn.
    run H.
    all: nth_cases i Hn; try lia.
    all: injection Hn as ? ?; subst.
    all: match goal with
         | E : streams _ = _ |- _ =>
             cbn [streams] in E; try discriminate E; injection E as ? ?; subst
         end.
    all: cbv [trace]; unfold dimensions_of.
    all: match goal with E : (_ >? 0) = _ |- _ => revert E end.
    all: intros Eg.
    all: (split; [|split]).
    all: try (apply Z.gtb_lt in Eg; split; [intros _; eexists; reflexivity| intros _; lia]).
    all: try (split; [intros G; apply Z.gt_lt, Z.gtb_lt in G; congruence
                     |intros [resp Hx]; discriminate Hx]).
    all: try (intros c Hc; cbn [nth_error] in Hc; try discriminate Hc;
              eexists; reflexivity).
    all: try (apply Z.gtb_lt in Eg; intros Hle; lia).
    all: intros _ j r resp Hj Hx.
    all: do 16 (destruct j as [|j];
                [try lia; cbn [nth_error] in Hx; try discriminate Hx;
                 injection Hx as <- <-; reflexivity|]).
    all: cbn [nth_error] in Hx; destruct j; discriminate Hx. }
  split; [|split; [|split; [exact G|split]]].
  - intros t d Hd. unfold reducePercentage, js_gt.
    assert (E : (d >? t) = false) by (rewrite Z.gtb_ltb; apply Z.ltb_ge; exact Hd).
    rewrite E. reflexivity.
  - exact reduce_exact.
  - split; [exact E0|].
    intros env object o wd i f s0 rest H Hi Hn Hw Hh.
    destruct (G env object o wd i f s0 rest H Hi Hn) as (_ & _ & G3).
    apply G3. unfold dimensions_of. rewrite Hw, Hh, E0. lia.
  - split; [exact E50|].
    intros env object o wd i f s0 rest H Hi Hn Hw Hh.
    destruct (G env object o wd i f s0 rest H Hi Hn) as ([G1 _] & _ & _).
    unfold dimensions_of in G1. rewrite Hw, Hh, E50 in G1.
    apply G1. lia.
Qed.

(** C3, an instance: 960 by 850, and the run on [videos/clip.mov]. *)
Lemma C3_preview_scale_witness :
  (960 <= MAX_VALUE /\ 850 <= MAX_VALUE
   /\ reduce_of {| width := Some 850; height := Some 960 |} = exact_scale 960 850)
  /\ exists resp,
       nth_error (trace (snd (handle (env_ok "mpeg4" 850 960) clip_mov))) 10
       = Some (Ffmpeg
                 {| input := lit "/tmp/videos/clip.mov";
                    format := Some (lit "mp4");
                    videoCodec := Some (lit "libx264");
                    size := Some (lit "50%");
                    seek := None;
                    frames := None;
                    output := lit "/tmp/videos/clip_thumb_output.mp4" |},
               resp).
Proof.
  assert (Hh : 960 <= MAX_VALUE) by (unfold MAX_VALUE; cbv; discriminate).
  assert (Hw : 850 <= MAX_VALUE) by (unfold MAX_VALUE; cbv; discriminate).
  split.
  - split; [exact Hh|]. split; [exact Hw|].
    exact (proj1 (proj2 C3_preview_scale) 960 850 Hh Hw).
  - exact (proj2 (proj2 (proj2 (proj2 (proj2 C3_preview_scale))))
             (env_ok "mpeg4" 850 960) clip_mov
             (fst (handle (env_ok "mpeg4" 850 960) clip_mov))
             (snd (handle (env_ok "mpeg4" 850 960) clip_mov))
             9%nat (tempLocalFile_of clip_mov) (video_stream "mpeg4" 850 960) []
             ltac:(vm_compute; reflexivity) ltac:(lia) ltac:(vm_compute; reflexivity)
             eq_refl eq_refl).
Defined.

(** ** C4: other content types *)

(** C4. When the lowercased content type starts with neither [image/] nor
    [video/], the trigger returns at once: no download and no upload, in
    the current variant and in the older one. *)
Theorem C4_ineligible_is_noop env object :
  startsWith (toLowerCase (contentType object)) (lit "image/") = false ->
  startsWith (toLowerCase (contentType object)) (lit "video/") = false ->
  (forall o w, handle env object = (o, w) ->
     o = Done tt /\ downloads w = 0%nat /\ uploads w = 0%nat)
  /\ (forall o w, Legacy.handle env object = (o, w) ->
        o = Done tt /\ downloads w = 0%nat /\ uploads w = 0%nat).
Proof.
  intros Hi Hv.
  assert (Li : startsWith (contentType object) (lit "image/") = false).
  { destruct (startsWith (contentType object) (lit "image/")) eqn:E; [|reflexivity].
    apply startsWith_lower in E.
    change (toLowerCase (lit "image/")) with (lit "image/") in E. congruence. }
  assert (Lv : startsWith (contentType object) (lit "video/") = false).
  { destruct (startsWith (contentType object) (lit "video/")) eqn:E; [|reflexivity].
    apply startsWith_lower in E.
    change (toLowerCase (lit "video/")) with (lit "video/") in E. congruence. }
  split; intros o w H.
  - cbv beta iota zeta delta [handle generateThumbnail is_image is_video] in H.
    rewrite Hi, Hv in H. cbn [negb andb] in H. injection H as <- <-.
    repeat split.
  - cbv beta iota zeta delta [Legacy.handle Legacy.generateThumbnail] in H.
    rewrite Li, Lv in H. cbn [negb andb] in H. injection H as <- <-.
    repeat split.
Qed.

(** C4, an instance: a text file. *)
Lemma C4_ineligible_witness :
  startsWith (toLowerCase (contentType notes_txt)) (lit "image/") = false
  /\ startsWith (toLowerCase (contentType notes_txt)) (lit "video/") = false
  /\ downloads (snd (handle env_probe_error notes_txt)) = 0%nat
  /\ uploads (snd (handle env_probe_error notes_txt)) = 0%nat.
Proof.
  assert (Hi : startsWith (toLowerCase (contentType notes_txt)) (lit "image/") = false)
    by (vm_compute; reflexivity).
  assert (Hv : startsWith (toLowerCase (contentType notes_txt)) (lit "video/") = false)
    by (vm_compute; reflexivity).
  split; [exact Hi|]. split; [exact Hv|].
  exact (proj2 (proj1 (C4_ineligible_is_noop env_probe_error notes_txt Hi Hv)
                  (fst (handle env_probe_error notes_txt))
                  (snd (handle env_probe_error notes_txt))
                  (surjective_pairing _))).
Defined.

(** ** C5: objects the trigger produced itself *)

(** C5. On a key that passes the already-derived guard the trigger makes
    at most one download, no upload and no transform. *)
Theorem C5_already_derived_is_skipped env object o w :
  handle env object = (o, w) ->
  isAlreadyDerived (name object) (contentType object) = true ->
  (downloads w <= 1)%nat /\ uploads w = 0%nat /\ transforms w = 0%nat.
Proof.
  intros H Hd. unfold isAlreadyDerived in Hd.
  exec_in H.
  step H. { injection H as <- <-. counts. repeat split; lia. }
  step H. { injection H as <- <-. counts. repeat split; lia. }
  step H. { injection H as <- <-. counts. repeat split; lia. }
  step H.
  - rewrite Hd in H. injection H as <- <-. counts. repeat split; lia.
  - step H; [|discriminate E].
    rewrite Hd in H. injection H as <- <-. counts. repeat split; lia.
Qed.

(** C5, an instance: a thumbnail delivered as a trigger. *)
Lemma C5_already_derived_witness :
  isAlreadyDerived (name thumb_png) (contentType thumb_png) = true
  /\ (downloads (snd (handle (env_ok "png" 640 480) thumb_png)) <= 1)%nat
  /\ uploads (snd (handle (env_ok "png" 640 480) thumb_png)) = 0%nat
  /\ transforms (snd (handle (env_ok "png" 640 480) thumb_png)) = 0%nat.
Proof.
  assert (Hd : isAlreadyDerived (name thumb_png) (contentType thumb_png) = true)
    by (vm_compute; reflexivity).
  split; [exact Hd|].
  exact (C5_already_derived_is_skipped (env_ok "png" 640 480) thumb_png
           (fst (handle (env_ok "png" 640 480) thumb_png))
           (snd (handle (env_ok "png" 640 480) thumb_png))
           (surjective_pairing _) Hd).
Defined.

(** ** C6: the codec gate *)



(** The older variant stops at the codec gate: after an [h264] probe it
    returns without a transform and without an upload. *)
Lemma legacy_h264_returns env object o w f m :
  Legacy.handle env object = (o, w) ->
  nth_error (trace w) 2 = Some (Ffprobe f, Probed m) ->
  getCodec_settle (inr m) = Resolved (Some (lit "h264")) ->
  startsWith (contentType object) (lit "image/") = false ->
  o = Done tt /\ transforms w = 0%nat /\ uploads w = 0%nat.
Proof.
  intros H Hn Hc Hi.
  cbv beta iota zeta delta [getCodec_settle] in Hc.
  run H; cbn [nth_error trace] in Hn; try discriminate Hn.
  all: injection Hn as ? ?; subst.
  all: try congruence.
  all: try (rewrite Hc in *; discriminate).
  all: try (match goal with
            | E : snd _ = Resolved _ |- _ =>
                rewrite Hc in E; injection E as <-
            end).
  all: try (match goal with
            | E : str_eqb _ _ = false |- _ => vm_compute in E; discriminate E
            end).
  all: counts; repeat split.
Qed.

(** ** C7: images below the thumbnail box *)

(** C7. When the probe of an image reports a width and a height both
    below the thumbnail box, the trigger returns without a transform and
    without an upload. *)
Theorem C7_small_image_is_skipped env object o w f m s0 rest wd ht :
  handle env object = (o, w) ->
  is_image (contentType object) = true ->
  nth_error (trace w) 2 = Some (Ffprobe f, Probed m) ->
  streams m = s0 :: rest ->
  Stream.width s0 = Some wd -> Stream.height s0 = Some ht ->
  wd < THUMB_MAX_WIDTH -> ht < THUMB_MAX_HEIGHT ->
  o = Done tt /\ transforms w = 0%nat /\ uploads w = 0%nat.
Proof.
  intros H Hi Hn Hs Hw Hh Lw Lh.
  assert (G : js_lt (Stream.width s0) THUMB_MAX_WIDTH
              && js_lt (Stream.height s0) THUMB_MAX_HEIGHT = true).
  { rewrite Hw, Hh. cbn [js_lt]. apply andb_true_iff; split; now apply Z.ltb_lt. }
  run H; cbn [nth_error trace] in Hn; try discriminate Hn.
  all: injection Hn as ? ?; subst; cbn [width height] in *.
  all: try congruence.
  all: try (counts; repeat split; congruence).
Qed.

(** C7, an instance: an image of 120 by 90. *)
Lemma C7_small_image_witness :
  is_image (contentType cat_png) = true
  /\ 120 < THUMB_MAX_WIDTH /\ 90 < THUMB_MAX_HEIGHT
  /\ fst (handle (env_ok "png" 120 90) cat_png) = Done tt
  /\ transforms (snd (handle (env_ok "png" 120 90) cat_png)) = 0%nat
  /\ uploads (snd (handle (env_ok "png" 120 90) cat_png)) = 0%nat.
Proof.
  assert (Hi : is_image (contentType cat_png) = true) by (vm_compute; reflexivity).
  assert (Lw : 120 < THUMB_MAX_WIDTH) by (unfold THUMB_MAX_WIDTH; lia).
  assert (Lh : 90 < THUMB_MAX_HEIGHT) by (unfold THUMB_MAX_HEIGHT; lia).
  assert (Hn : nth_error (trace (snd (handle (env_ok "png" 120 90) cat_png))) 2
               = Some (Ffprobe (tempLocalFile_of cat_png),
                       Probed {| streams := [video_stream "png" 120 90] |}))
    by (vm_compute; reflexivity).
  split; [exact Hi|]. split; [exact Lw|]. split; [exact Lh|].
  exact (C7_small_image_is_skipped (env_ok "png" 120 90) cat_png
           (fst (handle (env_ok "png" 120 90) cat_png))
           (snd (handle (env_ok "png" 120 90) cat_png))
           _ _ (video_stream "png" 120 90) [] 120 90
           (surjective_pairing _) Hi Hn eq_refl eq_refl eq_refl Lw Lh).
Defined.

(** ** C8: the codec of a probed file *)

(** C8. The code departs from the claim when the file has no video
    stream: [resolve] is never called, the promise of [getCodec] stays
    pending instead of carrying [null], and the invocation hangs at the
    [await]. *)
Theorem C8_no_video_stream_never_settles :
  getCodec_settle (inr {| streams := [audio_stream] |}) = Pending
  /\ getCodec_settle (inr {| streams := [] |}) = Pending
  /\ fst (handle env_audio_only clip_mov) = Hang.
Proof. vm_compute. repeat split; reflexivity. Qed.

(** ** C9: a failed step ends the invocation *)

(** C9. The code departs from the claim at the probes. A probe that
    reports no stream is a failed probe, and the invocation does not
    surface it: for a video the promise of [getCodec] is never settled and
    the invocation hangs; for an image the callback of [getDimentions]
    throws on [streams[0].width] outside the promise, which is never
    settled either. And when ffprobe itself fails on an image, the callback
    of [getDimentions] rejects and then throws on [metadata.streams]: what
    leaves the callback is a [TypeError] that nobody catches, not the
    error of the probe. In the three runs the probe is the last call: the
    remaining steps are not executed. *)
Theorem C9_probe_failure_is_not_surfaced :
  handle env_no_stream clip_mov
  = (Hang,
     {| files := [lit "/tmp/videos/clip.mov"];
        trace := [(Mkdirp (lit "/tmp/videos"), Ok);
                  (Download (lit "media") (lit "videos/clip.mov")
                     (lit "/tmp/videos/clip.mov"), Ok);
                  (Ffprobe (lit "/tmp/videos/clip.mov"),
                   Probed {| streams := [] |})] |})
  /\ handle env_no_stream cat_png
     = (Uncaught (TypeError "width"),
        {| files := [lit "/tmp/pics/cat.png"];
           trace := [(Mkdirp (lit "/tmp/pics"), Ok);
                     (Download (lit "media") (lit "pics/cat.png")
                        (lit "/tmp/pics/cat.png"), Ok);
                     (Ffprobe (lit "/tmp/pics/cat.png"),
                      Probed {| streams := [] |})] |})
  /\ handle env_probe_error cat_png
     = (Uncaught (TypeError "streams"),
        {| files := [lit "/tmp/pics/cat.png"];
           trace := [(Mkdirp (lit "/tmp/pics"), Ok);
                     (Download (lit "media") (lit "pics/cat.png")
                        (lit "/tmp/pics/cat.png"), Ok);
                     (Ffprobe (lit "/tmp/pics/cat.png"),
                      Failed "ffprobe exited with code 1"%string)] |}).
Proof. vm_compute. repeat split; reflexivity. Qed.

(** ** C10: video keys without an extension *)




(** * Further properties of the code *)

Ltac counts' :=
  cbv [downloads uploads transforms probes count requests map filter is_download
       is_upload is_transform is_probe fst trace List.length].

(** X4. Every upload comes right after a transform that succeeded and
    that wrote the very file being uploaded. *)
Theorem upload_follows_its_transform env object o w j b l opts resp :
  handle env object = (o, w) ->
  nth_error (trace w) (S j) = Some (Upload b l opts, resp) ->
  exists r, nth_error (trace w) j = Some (r, Ok)
            /\ is_transform r = true /\ produced r = Some l.
Proof.
  intros H Hn. run H.
  all: cbv [trace] in Hn.
  all: repeat (destruct j as [|j]; cbn [nth_error] in Hn; try discriminate Hn).
  all: injection Hn as <- <- <- <-.
  all: eexists; cbn [nth_error]; split; [reflexivity|split; reflexivity].
Qed.

(** X5. After an upload that succeeded the next call removes the local
    file that was uploaded. *)
Theorem upload_is_followed_by_unlink env object o w j b l opts :
  handle env object = (o, w) ->
  nth_error (trace w) j = Some (Upload b l opts, Ok) ->
  exists resp, nth_error (trace w) (S j) = Some (UnlinkSync l, resp).
Proof.
  intros H Hn. run H.
  all: cbv [trace] in Hn.
  all: repeat (destruct j as [|j]; cbn [nth_error] in Hn; try discriminate Hn).
  all: injection Hn as <- <- <-.
  all: eexists; cbn [nth_error]; reflexivity.
Qed.

(** X8. One invocation makes at most one download, two probes and three
    transforms, and never more uploads than transforms; for an image at
    most one probe and one transform. *)
Theorem invocation_budget env object o w :
  handle env object = (o, w) ->
  (downloads w <= 1)%nat /\ (probes w <= 2)%nat
  /\ (transforms w <= 3)%nat /\ (uploads w <= transforms w)%nat
  /\ (is_image (contentType object) = true ->
      (probes w <= 1)%nat /\ (transforms w <= 1)%nat).
Proof.
  intros H. run H.
  all: counts'; repeat split; try lia.
  all: intros; try discriminate; try lia.
Qed.

(** X9. The only download is the triggering object, from its bucket, to
    its scratch path, and every upload goes to that same bucket. *)
Theorem stays_in_the_bucket env object o w r resp :
  handle env object = (o, w) ->
  In (r, resp) (trace w) ->
  match r with
  | Download b f d =>
      b = bucket object /\ f = name object /\ d = tempLocalFile_of object
  | Upload b _ _ => b = bucket object
  | _ => True
  end.
Proof.
  intros H Hin. run H.
  all: cbv [trace In] in Hin.
  all: repeat (destruct Hin as [Hin|Hin]; [injection Hin as <- <-|]); try contradiction.
  all: cbv beta iota; auto.
Qed.

(** X10. Whenever a run has a third call, its first two calls are the
    creation of the scratch directory and the download, and both
    succeeded. *)
Theorem nothing_before_the_download env object o w j r resp :
  handle env object = (o, w) ->
  (2 <= j)%nat ->
  nth_error (trace w) j = Some (r, resp) ->
  nth_error (trace w) 0
  = Some (Mkdirp (Path.dirname (tempLocalFile_of object)), Ok)
  /\ nth_error (trace w) 1
     = Some (Download (bucket object) (name object) (tempLocalFile_of object), Ok).
Proof.
  intros H Hj Hn. run H.
  all: cbv [trace] in *.
  all: do 2 (destruct j as [|j]; [lia|]).
  all: cbn [nth_error] in Hn; try (destruct j; discriminate Hn).
  all: split; reflexivity.
Qed.

Lemma remove_head f l : remove f (f :: l) = remove f l.
Proof. cbn [remove]. now rewrite str_eqb_refl. Qed.

Lemma remove_incl a l x : In x (remove a l) -> In x l.
Proof.
  induction l as [|g l IH]; [easy|]. cbn [remove].
  destruct (str_eqb a g); cbn [In]; intuition.
Qed.

(** Removing [t] from a list that holds nothing but [t] empties it. *)
Lemma remove_all t l : (forall x, In x l -> x = t) -> remove t l = [].
Proof.
  induction l as [|g l IH]; intros H; [reflexivity|].
  rewrite (H g (or_introl eq_refl)), remove_head.
  apply IH. intros x Hx. apply H. now right.
Qed.

(** X7. An invocation that returns normally after an upload leaves no
    scratch file at all: the input and every derived file are removed. *)
Theorem completed_run_leaves_no_scratch env object w :
  handle env object = (Done tt, w) ->
  (0 < uploads w)%nat ->
  files w = [].
Proof.
  intros H Hu.
  exec_in H; repeat step H; try discriminate H.
  all: apply (f_equal snd) in H; cbn [snd] in H; subst w.
  all: try (revert Hu; counts; lia).
  all: clear Hu; cbv [files]; repeat rewrite remove_head.
  all: apply remove_all; intros x Hx.
  all: repeat apply remove_incl in Hx.
  all: cbn [In] in Hx; destruct Hx as [Hx|Hx]; [now symmetry|contradiction].
Qed.

(** X17. In the older variant an invocation that returns normally after
    an upload leaves no scratch file. *)
Theorem legacy_completed_run_leaves_no_scratch env object w :
  Legacy.handle env object = (Done tt, w) ->
  (0 < uploads w)%nat ->
  files w = [].
Proof.
  intros H Hu.
  exec_in H; repeat step H; try discriminate H.
  all: apply (f_equal snd) in H; cbn [snd] in H; subst w.
  all: try (revert Hu; counts; lia).
  all: clear Hu; cbv [files]; repeat rewrite remove_head.
  all: apply remove_all; intros x Hx.
  all: repeat apply remove_incl in Hx.
  all: cbn [In] in Hx; destruct Hx as [Hx|Hx]; [now symmetry|contradiction].
Qed.

(** X16. In the older variant too a call that fails is the last call
    and the invocation is rejected with its error. *)
Theorem legacy_failure_aborts env object o w i r e :
  Legacy.handle env object = (o, w) ->
  nth_error (trace w) i = Some (r, Failed e) ->
  S i = List.length (trace w) /\ o = Throw e.
Proof.
  intros H Hn. run H.
  all: nth_cases i Hn.
  all: injection Hn as _ <-; split; reflexivity.
Qed.

(** X13. The size gate is a conjunction: an image that reaches the box on
    one axis, or whose first stream carries no size, is thumbnailed with
    the shrink-only geometry [300x300>] right after the probe. *)
Theorem large_image_is_thumbnailed env object o w f m s0 rest :
  handle env object = (o, w) ->
  is_image (contentType object) = true ->
  nth_error (trace w) 2 = Some (Ffprobe f, Probed m) ->
  streams m = s0 :: rest ->
  js_lt (Stream.width s0) THUMB_MAX_WIDTH = false
  \/ js_lt (Stream.height s0) THUMB_MAX_HEIGHT = false ->
  exists resp,
    nth_error (trace w) 3
    = Some (Spawn (lit "convert")
              [tempLocalFile_of object; lit "-thumbnail"; lit "300x300>";
               Path.join [os_tmpdir; thumbFilePath_of (name object)]], resp).
Proof.
  intros H Hi Hn Hs Hg.
  assert (G : js_lt (Stream.width s0) THUMB_MAX_WIDTH
              && js_lt (Stream.height s0) THUMB_MAX_HEIGHT = false).
  { destruct Hg as [-> | ->]; [reflexivity|apply andb_false_r]. }
  run H; cbn [nth_error trace] in Hn; try discriminate Hn.
  all: injection Hn as ? ?; subst; cbn [width height] in *.
  all: try congruence.
  all: try (match goal with
            | E : streams _ = _ |- _ => rewrite Hs in E; injection E as <- <-
            end; congruence).
  all: eexists; reflexivity.
Qed.

(** X14. The codec test is an exact comparison with ["h264"]: for any
    other codec name the call after the probe is the conversion to mp4
    with libx264 at 100%, into the scratch path of the Transcode key. *)
Theorem other_codec_is_transcoded env object o w f m c :
  handle env object = (o, w) ->
  is_video (contentType object) = true ->
  nth_error (trace w) 2 = Some (Ffprobe f, Probed m) ->
  getCodec_settle (inr m) = Resolved (Some c) ->
  str_eqb c (lit "h264") = false ->
  exists resp,
    nth_error (trace w) 3
    = Some (Ffmpeg {| input := tempLocalFile_of object;
                      format := Some (lit "mp4");
                      videoCodec := Some (lit "libx264");
                      size := Some (lit "100%");
                      seek := None; frames := None;
                      output := Path.join [os_tmpdir; mp4FilePath_of (name object)] |},
            resp).
Proof.
  intros H Hv Hn Hc Hne. apply video_not_image in Hv.
  cbv beta iota zeta delta [getCodec_settle] in Hc.
  run H; cbn [nth_error trace] in Hn; try discriminate Hn.
  all: injection Hn as ? ?; subst.
  all: try congruence.
  all: try (rewrite Hc in *; discriminate).
  all: try (match goal with
            | E : snd _ = Resolved _ |- _ =>
                rewrite Hc in E; injection E as <-
            end).
  all: try (match goal with
            | E : negb _ = false |- _ => rewrite Hne in E; discriminate E
            end).
  all: eexists; reflexivity.
Qed.

(** The pattern matches once, at the last dot: the stem before it is kept
    and the extension after it is replaced. *)
Lemma replace_ext_stem s r :
  has_ext s = true ->
  exists stem ext,
    s = stem ++ dot :: ext /\ ext <> [] /\ forallb not_slash_dot ext = true
    /\ replace_ext s r = stem ++ r.
Proof.
  induction s as [|c rest IH]; [discriminate|].
  cbn [has_ext replace_ext]. destruct (ext_here (c :: rest)) eqn:E.
  - intros _. unfold ext_here in E. apply andb_true_iff in E as [E1 E2].
    apply Ascii.eqb_eq in E1. subst c. exists [], rest.
    destruct rest; [discriminate|]. repeat split; [discriminate|exact E2].
  - cbn [orb]. intros H. destruct (IH H) as (stem & ext & -> & Hne & Hall & ->).
    exists (c :: stem), ext. repeat split; assumption.
Qed.

Lemma has_ext_app a ext :
  ext <> [] -> forallb not_slash_dot ext = true -> has_ext (a ++ dot :: ext) = true.
Proof.
  intros Hne Hall. induction a as [|c a IH]; cbn [app has_ext].
  - unfold ext_here. change (chr_eqb dot dot) with true.
    destruct ext; [contradiction|]. cbn [andb]. rewrite Hall. reflexivity.
  - rewrite IH. apply orb_true_r.
Qed.

Lemma has_ext_basename k : has_ext k = true -> has_ext (Path.basename k) = true.
Proof.
  intros H. destruct (has_ext_split k H) as (pre & rest & -> & Hne & Hall).
  rewrite (basename_after_prefix pre (dot :: rest)).
  - now apply has_ext_app.
  - discriminate.
  - cbn [forallb]. change (Path.not_slash dot) with true.
    now rewrite (not_slash_dot_not_slash _ Hall).
Qed.

Lemma app_not_self (a b : str) : a <> [] -> a ++ b <> b.
Proof.
  intros Ha E. apply (f_equal (@List.length _)) in E. rewrite length_app in E.
  destruct a; [contradiction|]. cbn in E. lia.
Qed.

(** The thumbnail never has the key of its source. *)
Lemma thumb_target_differs key : thumbFilePath_of key <> key.
Proof.
  intros E. apply (f_equal Path.basename) in E. unfold thumbFilePath_of in E.
  rewrite basename_normalize_join in E.
  - revert E. apply app_not_self. discriminate.
  - apply dirname_nonempty.
  - split; [rewrite forallb_app, basename_no_slash; reflexivity|].
    rewrite length_app. cbn. lia.
Qed.

Lemma mp4_target_differs key r :
  has_ext (Path.basename key) = true ->
  forallb Path.not_slash r = true -> (3 <= List.length r)%nat ->
  (forall ext, r <> dot :: ext) ->
  Path.normalize (Path.join [Path.dirname key; replace_ext (Path.basename key) r]) <> key.
Proof.
  intros Hx Hr Hlen Hd E. apply (f_equal Path.basename) in E.
  destruct (replace_ext_stem _ r Hx) as (stem & ext & Es & _ & _ & Er).
  rewrite Er in E. rewrite basename_normalize_join in E.
  - rewrite Es in E. apply app_inv_head in E. now apply Hd in E.
  - apply dirname_nonempty.
  - apply suffixed_plain; [|exact Hr|exact Hlen].
    pose proof (basename_no_slash key) as Hb. rewrite Es, forallb_app in Hb.
    now apply andb_true_iff in Hb as [? _].
Qed.

Lemma poster_target_differs key :
  has_ext key = true -> remotePath_of key <> key.
Proof.
  intros Hx E. unfold remotePath_of in E.
  destruct (replace_ext_stem _ (lit "_poster.jpg") Hx) as (stem & ext & Es & _ & _ & Er).
  rewrite Er in E. rewrite Es in E. apply app_inv_head in E. discriminate E.
Qed.

(** X3. For an image, and for a video whose key has an extension, no
    upload goes to the key of the object that triggered the invocation. *)
Theorem never_overwrites_the_source env object o w b l opts resp :
  handle env object = (o, w) ->
  is_image (contentType object) = true \/ has_ext (name object) = true ->
  In (Upload b l opts, resp) (trace w) ->
  destination opts <> name object.
Proof.
  intros H Hk Hin.
  pose proof (thumb_target_differs (name object)) as T.
  assert (V : has_ext (name object) = true ->
              mp4FilePath_of (name object) <> name object
              /\ mp4FilePathThumb_of (name object) <> name object
              /\ remotePath_of (name object) <> name object).
  { intros Hx. pose proof (has_ext_basename _ Hx) as Hb. repeat split.
    - apply mp4_target_differs; [exact Hb|reflexivity|cbn; lia|discriminate].
    - apply mp4_target_differs; [exact Hb|reflexivity|cbn; lia|discriminate].
    - now apply poster_target_differs. }
  run H.
  all: cbv [trace In] in Hin.
  all: repeat (destruct Hin as [Hin|Hin]; [try discriminate Hin|]); try contradiction.
  all: injection Hin as <- <- <- <-; cbn [destination mp4Options posterOptions thumbOptions].
  all: try exact T.
  all: destruct Hk as [Hk|Hk]; [congruence|].
  all: destruct (V Hk) as (V1 & V2 & V3).
  all: first [exact V1 | exact V2 | exact V3].
Qed.

Lemma replace_ext_empty_no_slash s :
  forallb Path.not_slash s = true -> forallb Path.not_slash (replace_ext s []) = true.
Proof.
  intros H. destruct (has_ext s) eqn:E.
  - destruct (replace_ext_prefix s [] E) as (pre & suf & Es & ->).
    rewrite app_nil_r. rewrite Es, forallb_app in H.
    now apply andb_true_iff in H as [? _].
  - now rewrite replace_ext_none.
Qed.

(** X15. In the older variant every upload goes to a key that the guard
    of its own kind recognises, whatever the key of the source: after
    ImageMagick the base name of the destination starts with [thumb_],
    which is the guard of the image branch, and after ffmpeg it ends with
    [_output.mp4], which is the name guard of the video branch. *)
Theorem legacy_uploads_are_recognised env object o w j r resp0 b l opts resp :
  Legacy.handle env object = (o, w) ->
  nth_error (trace w) j = Some (r, resp0) ->
  nth_error (trace w) (S j) = Some (Upload b l opts, resp) ->
  match r with
  | Spawn _ _ =>
      startsWith (Path.basename (destination opts)) Legacy.THUMB_PREFIX = true
  | Ffmpeg _ =>
      endsWith (Path.basename (destination opts)) (lit "_output.mp4") = true
  | _ => False
  end.
Proof.
  intros H Hr Hn.
  pose proof (basename_no_slash (name object)) as Hb.
  assert (T : startsWith
                (Path.basename
                   (Path.normalize
                      (Path.join [Path.dirname (name object);
                                  Legacy.THUMB_PREFIX ++ Path.basename (name object)])))
                Legacy.THUMB_PREFIX = true).
  { rewrite basename_normalize_join.
    - now rewrite startsWith_app.
    - apply dirname_nonempty.
    - split; [rewrite forallb_app, Hb; reflexivity|].
      rewrite length_app. cbn. lia. }
  assert (V : endsWith
                (Path.basename
                   (Path.normalize
                      (Path.join [Path.dirname (name object);
                                  replace_ext (Path.basename (name object)) []
                                  ++ lit "_output.mp4"])))
                (lit "_output.mp4") = true).
  { rewrite basename_normalize_join.
    - apply endsWith_app.
    - apply dirname_nonempty.
    - apply suffixed_plain; [now apply replace_ext_empty_no_slash|reflexivity|cbn; lia]. }
  run H.
  all: cbv [trace] in Hn, Hr.
  all: repeat (destruct j as [|j]; cbn [nth_error] in Hn, Hr; try discriminate Hn).
  all: injection Hn as <- <- <- <-; injection Hr as <- <-.
  all: cbv beta iota; cbn [destination mp4Options thumbOptions].
  all: first [exact T | exact V].
Qed.

(** ** The preview scale in integers *)

(** The exact scale as two integer divisions. *)
Lemma exact_scale_div h w :
  exact_scale h w
  = Z.min (if h >? 480 then 48000 / h else 0) (if w >? 425 then 42500 / w else 0).
Proof.
  unfold exact_scale. rewrite Qfloor_min. f_equal.
  - destruct (h >? 480) eqn:E.
    + apply Z.gtb_lt in E. now rewrite Qfloor_axisQ by lia.
    + rewrite Z.gtb_ltb in E. apply Z.ltb_ge in E. now apply Qfloor_axisQ_low.
  - destruct (w >? 425) eqn:E.
    + apply Z.gtb_lt in E. now rewrite Qfloor_axisQ by lia.
    + rewrite Z.gtb_ltb in E. apply Z.ltb_ge in E. now apply Qfloor_axisQ_low.
Qed.

(** X11. For frame sizes up to [MAX_DIMENSION] the preview percentage is
    between 0 and 99, the scaled frame fits a 425 by 480 box, and the
    percentage is positive exactly when both dimensions exceed their
    thresholds and stay within 100 times them. *)
Theorem preview_fits_the_box h w :
  0 < h <= MAX_DIMENSION -> 0 < w <= MAX_DIMENSION ->
  0 <= reduce_of {| width := Some w; height := Some h |} <= 99
  /\ h * reduce_of {| width := Some w; height := Some h |} <= 48000
  /\ w * reduce_of {| width := Some w; height := Some h |} <= 42500
  /\ (reduce_of {| width := Some w; height := Some h |} > 0
      <-> 480 < h <= 48000 /\ 425 < w <= 42500).
Proof.
  intros Hh Hw. pose proof MAX_DIMENSION_le as M.
  rewrite (reduce_exact h w ltac:(lia) ltac:(lia)), exact_scale_div.
  destruct (h >? 480) eqn:Eh; destruct (w >? 425) eqn:Ew;
    rewrite ?Z.gtb_ltb in *;
    try apply Z.ltb_lt in Eh; try apply Z.ltb_ge in Eh;
    try apply Z.ltb_lt in Ew; try apply Z.ltb_ge in Ew.
  - pose proof (Z.mul_div_le 48000 h ltac:(lia)) as A1.
    pose proof (Z.mul_div_le 42500 w ltac:(lia)) as A2.
    assert (B1 : 48000 / h < 100) by (apply Z.div_lt_upper_bound; lia).
    assert (B2 : 42500 / w < 100) by (apply Z.div_lt_upper_bound; lia).
    assert (C1 : 0 <= 48000 / h) by (apply Z.div_pos; lia).
    assert (C2 : 0 <= 42500 / w) by (apply Z.div_pos; lia).
    assert (D1 : 0 < 48000 / h <-> h <= 48000).
    { split; intros G.
      - destruct (Z.le_gt_cases h 48000); [assumption|].
        rewrite Z.div_small in G by lia. lia.
      - apply Z.div_str_pos. lia. }
    assert (D2 : 0 < 42500 / w <-> w <= 42500).
    { split; intros G.
      - destruct (Z.le_gt_cases w 42500); [assumption|].
        rewrite Z.div_small in G by lia. lia.
      - apply Z.div_str_pos. lia. }
    repeat split; try nia; try lia.
  - pose proof (Z.div_pos 48000 h ltac:(lia) ltac:(lia)). 
    rewrite Z.min_r by lia. repeat split; lia.
  - pose proof (Z.div_pos 42500 w ltac:(lia) ltac:(lia)).
    rewrite Z.min_l by lia. repeat split; lia.
  - rewrite Z.min_l by lia. repeat split; lia.
Qed.

(** ** [getCodec] settles exactly when there is a video stream *)

Lemma first_video_split ss :
  existsb is_video_stream ss = true ->
  exists pre s post,
    ss = pre ++ s :: post
    /\ forallb (fun x => negb (is_video_stream x)) pre = true
    /\ is_video_stream s = true.
Proof.
  induction ss as [|x ss IH]; [discriminate|]. cbn [existsb].
  destruct (is_video_stream x) eqn:E.
  - intros _. exists [], x, ss. now repeat split.
  - cbn [orb]. intros H. destruct (IH H) as (pre & s & post & -> & Hp & Hs).
    exists (x :: pre), s, post. repeat split; [|exact Hs].
    cbn [forallb]. now rewrite E, Hp.
Qed.

Lemma getCodec_pending_iff_no_video ss :
  getCodec_settle (inr {| streams := ss |}) = Pending
  <-> existsb is_video_stream ss = false.
Proof.
  split.
  - intros H. destruct (existsb is_video_stream ss) eqn:E; [|reflexivity].
    destruct (first_video_split ss E) as (pre & s & post & -> & Hp & Hs).
    rewrite (getCodec_first_video pre s post Hp Hs) in H. discriminate H.
  - intros H. apply getCodec_no_video.
    induction ss as [|x ss IH]; [reflexivity|].
    cbn [existsb] in H. apply orb_false_iff in H as [H1 H2].
    cbn [forallb]. now rewrite H1, IH.
Qed.

(** X1. [getCodec] resolves with the codec name of the first stream of
    type ["video"], whatever follows it, and never settles when no stream
    is a video stream. *)
Theorem getCodec_result ss :
  getCodec_settle (inr {| streams := ss |})
  = match find is_video_stream ss with
    | Some s => Resolved (Some (Stream.codec_name s))
    | None => Pending
    end.
Proof.
  destruct (existsb is_video_stream ss) eqn:E.
  - destruct (first_video_split ss E) as (pre & s & post & -> & Hp & Hs).
    rewrite (getCodec_first_video pre s post Hp Hs).
    clear E. induction pre as [|x pre IH]; cbn [app find].
    + now rewrite Hs.
    + cbn [forallb] in Hp. apply andb_true_iff in Hp as [Hx Hp].
      apply negb_true_iff in Hx. rewrite Hx. now apply IH.
  - rewrite (proj2 (getCodec_pending_iff_no_video ss) E).
    induction ss as [|x ss IH]; [reflexivity|].
    cbn [existsb] in E. apply orb_false_iff in E as [E1 E2].
    cbn [find]. rewrite E1. now apply IH.
Qed.

(** X12. For a replacement without [$], the replacement of the extension
    either leaves the string as it is (no match) or cuts it at its last
    dot, which is followed by a non-empty run without dot or separator,
    and puts the replacement there. *)
Theorem replace_ext_cases s r :
  literal_replacement r = true ->
  (has_ext s = false /\ replace_ext s r = s)
  \/ (exists stem ext,
        s = stem ++ dot :: ext /\ ext <> []
        /\ forallb not_slash_dot ext = true
        /\ replace_ext s r = stem ++ r).
Proof.
  intros _. destruct (has_ext s) eqn:E.
  - right. now apply replace_ext_stem.
  - left. split; [reflexivity|now apply replace_ext_none].
Qed.

(** X2. For an image, and for a video whose key has an extension, every
    upload of the trigger goes to a key that the guard of the artifact's
    own kind recognises: the thumbnail made by ImageMagick and the poster
    frame pass the guard of the image branch, for every image content
    type, and an mp4 made by a conversion passes the guard of the video
    branch, for every video content type. None of its own uploads is
    processed again. *)
Theorem uploads_are_recognised env object o w j r resp0 b l opts resp :
  handle env object = (o, w) ->
  is_image (contentType object) = true \/ has_ext (name object) = true ->
  nth_error (trace w) j = Some (r, resp0) ->
  nth_error (trace w) (S j) = Some (Upload b l opts, resp) ->
  match r with
  | Spawn _ _ =>
      forall ct, is_image ct = true -> isAlreadyDerived (destination opts) ct = true
  | Ffmpeg c =>
      match format c with
      | None =>
          forall ct, is_image ct = true ->
                     isAlreadyDerived (destination opts) ct = true
      | Some _ =>
          forall ct, is_video ct = true ->
                     isAlreadyDerived (destination opts) ct = true
      end
  | _ => False
  end.
Proof.
  intros H Hk Hr Hn.
  destruct (derived_keys_recognised (name object)) as (T & V & P).
  cbn [derivedKey] in T, V, P.
  assert (V1 : has_ext (name object) = true ->
               forall ct, is_video ct = true ->
                          isAlreadyDerived (mp4FilePath_of (name object)) ct = true).
  { intros Hx ct Hv. exact (proj1 (V ct (has_ext_basename _ Hx) Hv)). }
  assert (V2 : has_ext (name object) = true ->
               forall ct, is_video ct = true ->
                          isAlreadyDerived (mp4FilePathThumb_of (name object)) ct = true).
  { intros Hx ct Hv. exact (proj2 (V ct (has_ext_basename _ Hx) Hv)). }
  assert (P1 : has_ext (name object) = true ->
               forall ct, is_image ct = true ->
                          isAlreadyDerived (remotePath_of (name object)) ct = true).
  { intros Hx ct Hi. exact (P ct Hx Hi). }
  run H.
  all: cbv [trace] in Hn, Hr.
  all: repeat (destruct j as [|j]; cbn [nth_error] in Hn, Hr; try discriminate Hn).
  all: injection Hn as <- <- <- <-; injection Hr as <- <-.
  all: cbv beta iota;
    cbn [format convertCommand posterCommand destination mp4Options posterOptions
         thumbOptions].
  all: try exact T.
  all: destruct Hk as [Hk|Hk]; [congruence|].
  all: first [exact (V1 Hk) | exact (V2 Hk) | exact (P1 Hk)].
Qed.

(** X6. The options of an upload follow from the transform before it.
    After ImageMagick: the thumbnail key, public, and as metadata the
    content type of the source and a [Cache-Control] of one hour. After
    the extraction of a frame: the poster key, [uploadType] media, not
    resumable, no public flag, gzip and a [cacheControl] of one year.
    After a conversion: the Transcode or the Preview key, [uploadType]
    media, not resumable, public, gzip and a [cacheControl] of one year,
    and the key is the one whose scratch path the conversion wrote. In
    each case the file sent is the scratch path of the destination. *)
Theorem upload_options_by_artifact env object o w j r resp0 b l opts resp :
  handle env object = (o, w) ->
  nth_error (trace w) j = Some (r, resp0) ->
  nth_error (trace w) (S j) = Some (Upload b l opts, resp) ->
  l = Path.join [os_tmpdir; destination opts]
  /\ match r with
     | Spawn _ _ =>
         opts = {| destination := thumbFilePath_of (name object);
                   uploadType := None;
                   resumable := None;
                   public := Some true;
                   metadata :=
                     [("contentType"%string, JStr (contentType object));
                      ("Cache-Control"%string, JStr (lit "public,max-age=3600"))] |}
     | Ffmpeg c =>
         match format c with
         | None =>
             opts = {| destination := replace_ext (name object) (lit "_poster.jpg");
                       uploadType := Some (lit "media");
                       resumable := Some false;
                       public := None;
                       metadata :=
                         [("gzip"%string, JBool true);
                          ("cacheControl"%string,
                           JStr (lit "public, max-age=31536000"))] |}
         | Some _ =>
             (destination opts = mp4FilePath_of (name object)
              \/ destination opts = mp4FilePathThumb_of (name object))
             /\ output c = Path.join [os_tmpdir; destination opts]
             /\ opts = {| destination := destination opts;
                          uploadType := Some (lit "media");
                          resumable := Some false;
                          public := Some true;
                          metadata :=
                            [("gzip"%string, JBool true);
                             ("cacheControl"%string,
                              JStr (lit "public, max-age=31536000"))] |}
         end
     | _ => False
     end.
Proof.
  intros H Hr Hn. run H.
  all: cbv [trace] in Hn, Hr.
  all: repeat (destruct j as [|j]; cbn [nth_error] in Hn, Hr; try discriminate Hn).
  all: injection Hn as <- <- <- <-; injection Hr as <- <-.
  all: split; [reflexivity|].
  all: cbv beta iota; cbn [format convertCommand posterCommand].
  all: first [reflexivity
             | split; [left; reflexivity|split; reflexivity]
             | split; [right; reflexivity|split; reflexivity]].
Qed.

(** X21. A call that the outside answers with an error is the last call of
    the invocation. The invocation is rejected with that error, except
    when the call is a probe of [getDimentions]: its callback rejects and
    then reads [metadata.streams] off [undefined], and the exception
    escapes. When the conversion of the Transcode artifact fails the run
    consists of the four calls up to it: neither the poster nor the
    preview is attempted. *)
Theorem failed_call_ends_the_run env object o w i r e :
  handle env object = (o, w) ->
  nth_error (trace w) i = Some (r, Failed e) ->
  S i = List.length (trace w)
  /\ (if is_dimension_probe object i r
      then o = Uncaught (TypeError "streams")
      else o = Throw e)
  /\ (forall c,
        i = 3%nat -> r = Ffmpeg c -> size c = Some (lit "100%") ->
        requests w
        = [Mkdirp (Path.dirname (Path.join [os_tmpdir; name object]));
           Download (bucket object) (name object) (Path.join [os_tmpdir; name object]);
           Ffprobe (Path.join [os_tmpdir; name object]);
           Ffmpeg c]).
Proof.
  intros H Hn. run H.
  all: nth_cases i Hn.
  all: injection Hn as <- <-.
  all: split; [reflexivity|].
  all: unfold is_dimension_probe; cbn [is_probe andb].
  all: repeat match goal with
              | E : is_image _ = _ |- _ => rewrite E; clear E
              end.
  all: cbn [orb negb Nat.eqb].
  all: split; [reflexivity|].
  all: intros c Hi Hc Hs; try discriminate Hi; try discriminate Hc.
  all: injection Hc as <-; try discriminate Hs.
  all: reflexivity.
Qed.

(** X18. The codec gate of the older variant: on [h264] it returns after
    three calls and leaves the scratch copy of the input on disk; on any
    other codec, unless the name ends with [_output.mp4], the next call is
    the conversion to mp4 with libx264, without a size. *)
Theorem legacy_codec_gate env object o w f m c :
  Legacy.handle env object = (o, w) ->
  startsWith (contentType object) (lit "image/") = false ->
  nth_error (trace w) 2 = Some (Ffprobe f, Probed m) ->
  getCodec_settle (inr m) = Resolved (Some c) ->
  (str_eqb c (lit "h264") = true ->
   o = Done tt /\ List.length (trace w) = 3%nat
   /\ files w = [tempLocalFile_of object])
  /\ (str_eqb c (lit "h264") = false ->
      endsWith (Path.basename (name object)) (lit "_output.mp4") = false ->
      exists resp,
        nth_error (trace w) 3
        = Some (Ffmpeg {| input := tempLocalFile_of object;
                          format := Some (lit "mp4");
                          videoCodec := Some (lit "libx264");
                          size := None; seek := None; frames := None;
                          output :=
                            Path.join
                              [os_tmpdir;
                               Path.normalize
                                 (Path.join
                                    [Path.dirname (name object);
                                     replace_ext (Path.basename (name object)) []
                                     ++ lit "_output.mp4"])] |},
                resp)).
Proof.
  intros H Hi Hn Hc.
  cbv beta iota zeta delta [getCodec_settle] in Hc.
  exec_in H; repeat step H.
  all: pose proof (f_equal fst H) as Ho; pose proof (f_equal snd H) as Hw.
  all: cbn [fst snd] in Ho, Hw; subst o w; clear H.
  all: cbn [nth_error trace] in Hn; try discriminate Hn.
  all: injection Hn as ? ?; subst.
  all: try congruence.
  all: try (rewrite Hc in *; discriminate).
  all: try (match goal with
            | E : snd _ = Resolved _ |- _ =>
                rewrite Hc in E; injection E as <-
            end).
  all: split; [intros G|intros G G'].
  all: try congruence.
  all: try (repeat split; reflexivity).
  all: eexists; reflexivity.
Qed.

(** X19. A probe that reports no stream at all is the last call of the
    invocation, for the codec probe and for the dimension probes alike,
    and the invocation does not return normally: neither promise is
    settled. *)
Theorem probe_without_streams_stops env object o w i f m :
  handle env object = (o, w) ->
  nth_error (trace w) i = Some (Ffprobe f, Probed m) ->
  streams m = [] ->
  S i = List.length (trace w) /\ o <> Done tt.
Proof.
  intros H Hn Hs.
  run H; nth_cases i Hn.
  all: injection Hn as ? ?; subst.
  all: try (match goal with
            | E : streams _ = _ :: _ |- _ => rewrite Hs in E; discriminate E
            end).
  all: try (match goal with
            | E : snd (fold_left _ (streams _) _) = _ |- _ =>
                rewrite Hs in E; discriminate E
            end).
  all: split; [reflexivity|discriminate].
Qed.

(** X20. The older variant has no size gate: for an image that is not
    itself a thumbnail it never probes, and the call after the download
    is ImageMagick with the shrink-only geometry [200x200>]. *)
Theorem legacy_image_is_thumbnailed_unprobed env object o w r1 :
  Legacy.handle env object = (o, w) ->
  startsWith (contentType object) (lit "image/") = true ->
  startsWith (Path.basename (name object)) Legacy.THUMB_PREFIX = false ->
  nth_error (trace w) 1 = Some (r1, Ok) ->
  probes w = 0%nat
  /\ exists resp,
       nth_error (trace w) 2
       = Some (Spawn (lit "convert")
                 [Path.join [os_tmpdir; name object]; lit "-thumbnail";
                  lit "200x200>";
                  Path.join
                    [os_tmpdir;
                     Path.normalize
                       (Path.join
                          [Path.dirname (name object);
                           Legacy.THUMB_PREFIX ++ Path.basename (name object)])]],
               resp).
Proof.
  intros H Hi Ht Hn.
  run H; cbn [nth_error trace] in Hn; try discriminate Hn.
  all: try congruence.
  all: split; [counts'; reflexivity|eexists; reflexivity].
Qed.

(** ** Instances *)

(** X2, an instance: the Transcode upload of [videos/clip.mov]. *)
Lemma uploads_are_recognised_witness :
  isAlreadyDerived (lit "videos/clip_output.mp4") (lit "video/mp4") = true.
Proof.
  apply (uploads_are_recognised (env_ok "mpeg4" 850 960) clip_mov
           (fst (handle (env_ok "mpeg4" 850 960) clip_mov))
           (snd (handle (env_ok "mpeg4" 850 960) clip_mov))
           3%nat
           (Ffmpeg (convertCommand (lit "/tmp/videos/clip.mov")
                      (lit "/tmp/videos/clip_output.mp4") (lit "100%")))
           Ok (lit "media") (lit "/tmp/videos/clip_output.mp4")
           (mp4Options (lit "videos/clip_output.mp4")) Ok
           (surjective_pairing _)
           (or_intror (eq_refl : has_ext (name clip_mov) = true))
           (eq_refl : nth_error
                        (trace (snd (handle (env_ok "mpeg4" 850 960) clip_mov))) 3
                      = Some (Ffmpeg (convertCommand (lit "/tmp/videos/clip.mov")
                                        (lit "/tmp/videos/clip_output.mp4")
                                        (lit "100%")), Ok))
           (eq_refl : nth_error
                        (trace (snd (handle (env_ok "mpeg4" 850 960) clip_mov))) 4
                      = Some (Upload (lit "media") (lit "/tmp/videos/clip_output.mp4")
                                (mp4Options (lit "videos/clip_output.mp4")), Ok))
           (lit "video/mp4")).
  vm_compute. reflexivity.
Defined.

(** X3, an instance: the Transcode upload of [videos/clip.mov]. *)
Lemma never_overwrites_the_source_witness :
  destination (mp4Options (lit "videos/clip_output.mp4")) <> name clip_mov.
Proof.
  apply (never_overwrites_the_source (env_ok "mpeg4" 850 960) clip_mov
           (fst (handle (env_ok "mpeg4" 850 960) clip_mov))
           (snd (handle (env_ok "mpeg4" 850 960) clip_mov))
           (lit "media") (lit "/tmp/videos/clip_output.mp4")
           (mp4Options (lit "videos/clip_output.mp4")) Ok).
  - apply surjective_pairing.
  - right. vm_compute. reflexivity.
  - apply (nth_error_In _ 4). vm_compute. reflexivity.
Defined.

(** X4, an instance: the fifth call of the run on [videos/clip.mov]. *)
Lemma upload_follows_its_transform_witness :
  exists r,
    nth_error (trace (snd (handle (env_ok "mpeg4" 850 960) clip_mov))) 3 = Some (r, Ok)
    /\ is_transform r = true
    /\ produced r = Some (lit "/tmp/videos/clip_output.mp4").
Proof.
  apply (upload_follows_its_transform (env_ok "mpeg4" 850 960) clip_mov
           (fst (handle (env_ok "mpeg4" 850 960) clip_mov))
           (snd (handle (env_ok "mpeg4" 850 960) clip_mov))
           3%nat (lit "media") (lit "/tmp/videos/clip_output.mp4")
           (mp4Options (lit "videos/clip_output.mp4")) Ok).
  - apply surjective_pairing.
  - vm_compute. reflexivity.
Defined.

(** X5, an instance: the call after the Transcode upload. *)
Lemma upload_is_followed_by_unlink_witness :
  exists resp,
    nth_error (trace (snd (handle (env_ok "mpeg4" 850 960) clip_mov))) 5
    = Some (UnlinkSync (lit "/tmp/videos/clip_output.mp4"), resp).
Proof.
  apply (upload_is_followed_by_unlink (env_ok "mpeg4" 850 960) clip_mov
           (fst (handle (env_ok "mpeg4" 850 960) clip_mov))
           (snd (handle (env_ok "mpeg4" 850 960) clip_mov))
           4%nat (lit "media") (lit "/tmp/videos/clip_output.mp4")
           (mp4Options (lit "videos/clip_output.mp4"))).
  - apply surjective_pairing.
  - vm_compute. reflexivity.
Defined.

(** X6, an instance: the poster upload of [videos/clip.mov]. *)
Lemma upload_options_by_artifact_witness :
  lit "/tmp/videos/clip_poster.jpg"
  = Path.join [os_tmpdir; lit "videos/clip_poster.jpg"]
  /\ posterOptions (lit "videos/clip_poster.jpg")
     = {| destination := replace_ext (name clip_mov) (lit "_poster.jpg");
          uploadType := Some (lit "media");
          resumable := Some false;
          public := None;
          metadata :=
            [("gzip"%string, JBool true);
             ("cacheControl"%string, JStr (lit "public, max-age=31536000"))] |}.
Proof.
  apply (upload_options_by_artifact (env_ok "mpeg4" 850 960) clip_mov
           (fst (handle (env_ok "mpeg4" 850 960) clip_mov))
           (snd (handle (env_ok "mpeg4" 850 960) clip_mov))
           6%nat
           (Ffmpeg (posterCommand (lit "/tmp/videos/clip.mov")
                      (lit "/tmp/videos/clip_poster.jpg")))
           Ok (lit "media") (lit "/tmp/videos/clip_poster.jpg")
           (posterOptions (lit "videos/clip_poster.jpg")) Ok).
  - apply surjective_pairing.
  - vm_compute. reflexivity.
  - vm_compute. reflexivity.
Defined.

(** X7, an instance: the complete run on [videos/clip.mov]. *)
Lemma completed_run_leaves_no_scratch_witness :
  files (snd (handle (env_ok "mpeg4" 850 960) clip_mov)) = [].
Proof.
  apply (completed_run_leaves_no_scratch (env_ok "mpeg4" 850 960) clip_mov).
  - vm_compute. reflexivity.
  - vm_compute. lia.
Defined.

(** X8, an instance: the complete run on [videos/clip.mov]. *)
Lemma invocation_budget_witness :
  (downloads (snd (handle (env_ok "mpeg4" 850 960) clip_mov)) <= 1)%nat
  /\ (probes (snd (handle (env_ok "mpeg4" 850 960) clip_mov)) <= 2)%nat
  /\ (transforms (snd (handle (env_ok "mpeg4" 850 960) clip_mov)) <= 3)%nat
  /\ (uploads (snd (handle (env_ok "mpeg4" 850 960) clip_mov))
      <= transforms (snd (handle (env_ok "mpeg4" 850 960) clip_mov)))%nat
  /\ (is_image (contentType clip_mov) = true ->
      (probes (snd (handle (env_ok "mpeg4" 850 960) clip_mov)) <= 1)%nat
      /\ (transforms (snd (handle (env_ok "mpeg4" 850 960) clip_mov)) <= 1)%nat).
Proof.
  apply (invocation_budget (env_ok "mpeg4" 850 960) clip_mov
           (fst (handle (env_ok "mpeg4" 850 960) clip_mov))).
  apply surjective_pairing.
Defined.

(** X9, an instance: the download of [videos/clip.mov]. *)
Lemma stays_in_the_bucket_witness :
  lit "media" = bucket clip_mov
  /\ lit "videos/clip.mov" = name clip_mov
  /\ lit "/tmp/videos/clip.mov" = tempLocalFile_of clip_mov.
Proof.
  apply (stays_in_the_bucket (env_ok "mpeg4" 850 960) clip_mov
           (fst (handle (env_ok "mpeg4" 850 960) clip_mov))
           (snd (handle (env_ok "mpeg4" 850 960) clip_mov))
           (Download (lit "media") (lit "videos/clip.mov") (lit "/tmp/videos/clip.mov"))
           Ok).
  - apply surjective_pairing.
  - apply (nth_error_In _ 1). vm_compute. reflexivity.
Defined.

(** X10, an instance: the probe of a run whose probe fails. *)
Lemma nothing_before_the_download_witness :
  nth_error (trace (snd (handle env_probe_error clip_mov))) 0
  = Some (Mkdirp (Path.dirname (tempLocalFile_of clip_mov)), Ok)
  /\ nth_error (trace (snd (handle env_probe_error clip_mov))) 1
     = Some (Download (bucket clip_mov) (name clip_mov) (tempLocalFile_of clip_mov), Ok).
Proof.
  apply (nothing_before_the_download env_probe_error clip_mov
           (fst (handle env_probe_error clip_mov))
           (snd (handle env_probe_error clip_mov))
           2%nat (Ffprobe (lit "/tmp/videos/clip.mov"))
           (Failed "ffprobe exited with code 1"%string)).
  - apply surjective_pairing.
  - lia.
  - vm_compute. reflexivity.
Defined.

(** X11, an instance: a frame of 1920 by 1080. *)
Lemma preview_fits_the_box_witness :
  0 <= reduce_of {| width := Some 1920; height := Some 1080 |} <= 99
  /\ 1080 * reduce_of {| width := Some 1920; height := Some 1080 |} <= 48000
  /\ 1920 * reduce_of {| width := Some 1920; height := Some 1080 |} <= 42500
  /\ (reduce_of {| width := Some 1920; height := Some 1080 |} > 0
      <-> 480 < 1080 <= 48000 /\ 425 < 1920 <= 42500).
Proof.
  apply (preview_fits_the_box 1080 1920); unfold MAX_DIMENSION; lia.
Defined.

(** X13, an instance: an image of 640 by 480. *)
Lemma large_image_is_thumbnailed_witness :
  exists resp,
    nth_error (trace (snd (handle (env_ok "png" 640 480) cat_png))) 3
    = Some (Spawn (lit "convert")
              [tempLocalFile_of cat_png; lit "-thumbnail"; lit "300x300>";
               Path.join [os_tmpdir; thumbFilePath_of (name cat_png)]], resp).
Proof.
  apply (large_image_is_thumbnailed (env_ok "png" 640 480) cat_png
           (fst (handle (env_ok "png" 640 480) cat_png))
           (snd (handle (env_ok "png" 640 480) cat_png))
           (lit "/tmp/pics/cat.png")
           {| streams := [video_stream "png" 640 480] |}
           (video_stream "png" 640 480) []).
  - apply surjective_pairing.
  - vm_compute. reflexivity.
  - vm_compute. reflexivity.
  - reflexivity.
  - left. vm_compute. reflexivity.
Defined.

(** X14, an instance: an mpeg4 video. *)
Lemma other_codec_is_transcoded_witness :
  exists resp,
    nth_error (trace (snd (handle (env_ok "mpeg4" 850 960) clip_mov))) 3
    = Some (Ffmpeg {| input := tempLocalFile_of clip_mov;
                      format := Some (lit "mp4");
                      videoCodec := Some (lit "libx264");
                      size := Some (lit "100%");
                      seek := None; frames := None;
                      output := Path.join [os_tmpdir; mp4FilePath_of (name clip_mov)] |},
            resp).
Proof.
  apply (other_codec_is_transcoded (env_ok "mpeg4" 850 960) clip_mov
           (fst (handle (env_ok "mpeg4" 850 960) clip_mov))
           (snd (handle (env_ok "mpeg4" 850 960) clip_mov))
           (lit "/tmp/videos/clip.mov")
           {| streams := [video_stream "mpeg4" 850 960] |} (lit "mpeg4")).
  - apply surjective_pairing.
  - vm_compute. reflexivity.
  - vm_compute. reflexivity.
  - vm_compute. reflexivity.
  - vm_compute. reflexivity.
Defined.

(** X15, an instance: the mp4 made from the extensionless [videos/clip]. *)
Lemma legacy_uploads_are_recognised_witness :
  endsWith (Path.basename (lit "videos/clip_output.mp4")) (lit "_output.mp4") = true.
Proof.
  apply (legacy_uploads_are_recognised (env_ok "mpeg4" 850 960) clip_noext
           (fst (Legacy.handle (env_ok "mpeg4" 850 960) clip_noext))
           (snd (Legacy.handle (env_ok "mpeg4" 850 960) clip_noext))
           3%nat
           (Ffmpeg (Legacy.convertCommand (lit "/tmp/videos/clip")
                      (lit "/tmp/videos/clip_output.mp4")))
           Ok (lit "media") (lit "/tmp/videos/clip_output.mp4")
           (mp4Options (lit "videos/clip_output.mp4")) Ok).
  - apply surjective_pairing.
  - vm_compute. reflexivity.
  - vm_compute. reflexivity.
Defined.

(** X16, an instance: the conversion fails. *)
Lemma legacy_failure_aborts_witness :
  4%nat = List.length (trace (snd (Legacy.handle env_convert_fails clip_mov)))
  /\ fst (Legacy.handle env_convert_fails clip_mov)
     = Throw "ffmpeg exited with code 1"%string.
Proof.
  apply (legacy_failure_aborts env_convert_fails clip_mov
           (fst (Legacy.handle env_convert_fails clip_mov))
           (snd (Legacy.handle env_convert_fails clip_mov))
           3%nat
           (Ffmpeg (Legacy.convertCommand (lit "/tmp/videos/clip.mov")
                      (lit "/tmp/videos/clip_output.mp4")))).
  - apply surjective_pairing.
  - vm_compute. reflexivity.
Defined.

(** X17, an instance: the complete run of the older variant. *)
Lemma legacy_completed_run_leaves_no_scratch_witness :
  files (snd (Legacy.handle (env_ok "mpeg4" 850 960) clip_mov)) = [].
Proof.
  apply (legacy_completed_run_leaves_no_scratch (env_ok "mpeg4" 850 960) clip_mov).
  - vm_compute. reflexivity.
  - vm_compute. lia.
Defined.

(** X18, an instance: an h264 video. *)
Lemma legacy_codec_gate_witness :
  fst (Legacy.handle (env_ok "h264" 850 960) clip_mov) = Done tt
  /\ List.length (trace (snd (Legacy.handle (env_ok "h264" 850 960) clip_mov))) = 3%nat
  /\ files (snd (Legacy.handle (env_ok "h264" 850 960) clip_mov))
     = [tempLocalFile_of clip_mov].
Proof.
  apply (proj1 (legacy_codec_gate (env_ok "h264" 850 960) clip_mov
                  (fst (Legacy.handle (env_ok "h264" 850 960) clip_mov))
                  (snd (Legacy.handle (env_ok "h264" 850 960) clip_mov))
                  (lit "/tmp/videos/clip.mov")
                  {| streams := [video_stream "h264" 850 960] |} (lit "h264")
                  (surjective_pairing _)
                  ltac:(vm_compute; reflexivity)
                  ltac:(vm_compute; reflexivity)
                  ltac:(vm_compute; reflexivity))).
  vm_compute. reflexivity.
Defined.

(** X19, an instance: an image whose probe reports no stream. *)
Lemma probe_without_streams_stops_witness :
  3%nat = List.length (trace (snd (handle env_no_stream cat_png)))
  /\ fst (handle env_no_stream cat_png) <> Done tt.
Proof.
  apply (probe_without_streams_stops env_no_stream cat_png
           (fst (handle env_no_stream cat_png))
           (snd (handle env_no_stream cat_png))
           2%nat (lit "/tmp/pics/cat.png") {| streams := [] |}).
  - apply surjective_pairing.
  - vm_compute. reflexivity.
  - reflexivity.
Defined.

(** X20, an instance: an image of 640 by 480 in the older variant. *)
Lemma legacy_image_is_thumbnailed_unprobed_witness :
  probes (snd (Legacy.handle (env_ok "png" 640 480) cat_png)) = 0%nat
  /\ exists resp,
       nth_error (trace (snd (Legacy.handle (env_ok "png" 640 480) cat_png))) 2
       = Some (Spawn (lit "convert")
                 [Path.join [os_tmpdir; name cat_png]; lit "-thumbnail";
                  lit "200x200>";
                  Path.join
                    [os_tmpdir;
                     Path.normalize
                       (Path.join
                          [Path.dirname (name cat_png);
                           Legacy.THUMB_PREFIX ++ Path.basename (name cat_png)])]],
               resp).
Proof.
  apply (legacy_image_is_thumbnailed_unprobed (env_ok "png" 640 480) cat_png
           (fst (Legacy.handle (env_ok "png" 640 480) cat_png))
           (snd (Legacy.handle (env_ok "png" 640 480) cat_png))
           (Download (lit "media") (lit "pics/cat.png") (lit "/tmp/pics/cat.png"))).
  - apply surjective_pairing.
  - vm_compute. reflexivity.
  - vm_compute. reflexivity.
  - vm_compute. reflexivity.
Defined.

(** X12, an instance: [clip.mov] and the suffix of the Transcode key. *)
Lemma replace_ext_cases_witness :
  (has_ext (lit "clip.mov") = false
   /\ replace_ext (lit "clip.mov") (lit "_output.mp4") = lit "clip.mov")
  \/ (exists stem ext,
        lit "clip.mov" = stem ++ dot :: ext /\ ext <> []
        /\ forallb not_slash_dot ext = true
        /\ replace_ext (lit "clip.mov") (lit "_output.mp4")
           = stem ++ lit "_output.mp4").
Proof.
  apply (replace_ext_cases (lit "clip.mov") (lit "_output.mp4")).
  vm_compute. reflexivity.
Defined.

(** X21, an instance: the conversion to mp4 fails. *)
Lemma failed_call_ends_the_run_witness :
  4%nat = List.length (trace (snd (handle env_convert_fails clip_mov)))
  /\ fst (handle env_convert_fails clip_mov)
     = Throw "ffmpeg exited with code 1"%string.
Proof.
  destruct (failed_call_ends_the_run env_convert_fails clip_mov
              (fst (handle env_convert_fails clip_mov))
              (snd (handle env_convert_fails clip_mov))
              3%nat
              (Ffmpeg (convertCommand (lit "/tmp/videos/clip.mov")
                         (lit "/tmp/videos/clip_output.mp4") (lit "100%")))
              "ffmpeg exited with code 1"%string
              (surjective_pairing _)
              ltac:(vm_compute; reflexivity)) as (H1 & H2 & _).
  split; [exact H1|exact H2].
Defined.
